(** * og_marl.replay_buffers: the FlashbaxReplayBuffer facade

    A shallow embedding of [src/og_marl/replay_buffers.py].  The facade
    object is a record threaded through a small state-and-exception monad;
    the flashbax trajectory buffer, jax.random and the vault it calls are
    modelled in their own modules. *)

From stdpp Require Import base list strings.
From Stdlib Require Import ZArith Lia.
From Stdlib Require Import Floats.SpecFloat.

Open Scope nat_scope.

(** ** Python exceptions and fallible results *)

Inductive exn :=
  | ValueError (msg : string)
  | AttributeError (msg : string)
  | OtherError (cls msg : string).

Inductive Result (A : Type) :=
  | Ok (a : A)
  | Err (e : exn).
Arguments Ok {A} a.
Arguments Err {A} e.

Definition is_ValueError (e : exn) : bool :=
  match e with ValueError _ => true | _ => false end.

Definition is_Ok {A} (r : Result A) : bool :=
  match r with Ok _ => true | Err _ => false end.

Definition result_bind {A B} (r : Result A) (f : A → Result B) : Result B :=
  match r with Ok a => f a | Err e => Err e end.

Definition result_map {A B} (f : A → B) (r : Result A) : Result B :=
  match r with Ok a => Ok (f a) | Err e => Err e end.

(** ** Arrays and timesteps

    An array carries its element type, its shape and its flattened
    contents.  A timestep is the dict built at the top of
    [FlashbaxReplayBuffer.add]: six named arrays. *)

(** The element types of the numpy arrays a caller passes: booleans,
    signed and unsigned integers, binary floating-point numbers. *)
Inductive dtype :=
  | bool_ | int8 | int16 | int32 | int64
  | uint8 | uint16 | uint32 | uint64
  | float16 | float32 | float64.

(** An element: an integer (a boolean is 0 or 1) or a floating-point
    number. *)
Inductive elem :=
  | Num (z : Z)
  | Flt (f : spec_float).

Record Array := mkArray { dtype_of : dtype; shape : list nat; data : list elem }.

Global Instance dtype_eq_dec : EqDecision dtype.
Proof. solve_decision. Defined.

Global Instance spec_float_eq_dec : EqDecision spec_float.
Proof. solve_decision. Defined.

Global Instance elem_eq_dec : EqDecision elem.
Proof. solve_decision. Defined.

Record Timestep := mkTimestep {
  observations : Array;
  actions : Array;
  rewards : Array;
  terminals : Array;
  truncations : Array;
  infos : Array
}.

Global Instance Array_eq_dec : EqDecision Array.
Proof. solve_decision. Defined.

Global Instance Timestep_eq_dec : EqDecision Timestep.
Proof. solve_decision. Defined.

(** [tree.map_structure f timestep] *)
Definition map_structure (f : Array → Array) (t : Timestep) : Timestep :=
  {| observations := f (observations t);
     actions := f (actions t);
     rewards := f (rewards t);
     terminals := f (terminals t);
     truncations := f (truncations t);
     infos := f (infos t) |}.

(** The per-field shapes of a timestep, in field order. *)
Definition tree_shape (t : Timestep) : list (list nat) :=
  [shape (observations t); shape (actions t); shape (rewards t);
   shape (terminals t); shape (truncations t); shape (infos t)].

(** The per-field element types of a timestep, in field order. *)
Definition tree_dtype (t : Timestep) : list dtype :=
  [dtype_of (observations t); dtype_of (actions t); dtype_of (rewards t);
   dtype_of (terminals t); dtype_of (truncations t); dtype_of (infos t)].

(** Element types and shapes together: what the store fixes once it is
    allocated. *)
Definition tree_spec (t : Timestep) : list dtype * list (list nat) :=
  (tree_dtype t, tree_shape t).

(** ** jax arrays *)

(** Modelled from the spec: the element type jax keeps an array in.  The
    spec is silent on it; this follows the library, which in its default
    configuration (64-bit types disabled) turns 64-bit integers and floats
    into 32-bit ones. *)
Definition canonicalize_dtype (d : dtype) : dtype :=
  match d with
  | int64 => int32
  | uint64 => uint32
  | float64 => float32
  | d => d
  end.

(** Modelled from the spec: a 64-bit integer narrowed to 32 bits wraps
    around. *)
Definition wrap_int32 (z : Z) : Z := ((z + 2 ^ 31) mod 2 ^ 32 - 2 ^ 31)%Z.

(** Modelled from the spec: likewise for an unsigned 64-bit integer. *)
Definition wrap_uint32 (z : Z) : Z := (z mod 2 ^ 32)%Z.

(** Modelled from the spec: a binary64 number narrowed to binary32 is
    rounded to the nearest, ties to even, and overflows to an infinity. *)
Definition round_float32 (f : spec_float) : spec_float :=
  match f with
  | S754_finite s m e => binary_round 24 128 s m e
  | f => f
  end.

(** Modelled from the spec: an element of an array of type [d] as jax
    keeps it; only the 64-bit types are narrowed. *)
Definition convert_element (d : dtype) (x : elem) : elem :=
  match d, x with
  | int64, Num z => Num (wrap_int32 z)
  | uint64, Num z => Num (wrap_uint32 z)
  | float64, Flt f => Flt (round_float32 f)
  | _, _ => x
  end.

(** Modelled from the spec: [jnp.array(x)], the jax array made from a
    numpy array: same shape, canonical element type, elements converted. *)
Definition jnp_array (a : Array) : Array :=
  {| dtype_of := canonicalize_dtype (dtype_of a);
     shape := shape a;
     data := convert_element (dtype_of a) <$> data a |}.

(** Modelled from the spec: the zero of an element type. *)
Definition zero_element (d : dtype) : elem :=
  match d with
  | float16 | float32 | float64 => Flt (S754_zero false)
  | _ => Num 0
  end.

(** Modelled from the spec: [jnp.empty_like], a jax array of the same
    shape, of the canonical element type, contents zero. *)
Definition empty_like (a : Array) : Array :=
  {| dtype_of := canonicalize_dtype (dtype_of a);
     shape := shape a;
     data := replicate (length (data a)) (zero_element (dtype_of a)) |}.

(** A timestep as the store holds it: every field a jax array. *)
Definition as_stored (t : Timestep) : Timestep := map_structure jnp_array t.

(** ** jax.random *)

(** Modelled from the spec: the generator is the jax library, taken here as
    a parameter.  Keys are opaque to the facade: it makes one from the seed,
    splits the current one in two and hands a sub-key to the sampler.
    [randint k n b] stands for [jax.random.randint(k, (n,), 0, b)]: [n]
    draws below [b], and the lower bound [0] for every draw when the range
    is empty. *)

Class Random := {
  key : Type;
  PRNGKey : Z → key;
  split : key → key * key;
  randint : key → nat → nat → list nat;
  randint_length : ∀ k n b, length (randint k n b) = n;
  randint_range : ∀ k n b, 0 < b → Forall (λ i, i < b) (randint k n b);
  randint_empty : ∀ k n, randint k n 0 = replicate n 0
}.

(** ** Key derivations

    The key reached from [k] by a path of splits: [false] takes the first
    half of a split (the one the facade keeps), [true] the second (the one
    it hands out).  A generator is collision free when different paths from
    one key never meet. *)

Fixpoint derive `{Random} (k : key) (path : list bool) : key :=
  match path with
  | [] => k
  | b :: path => derive (if b : bool then (split k).2 else (split k).1) path
  end.

Class CollisionFree `{Random} :=
  derive_inj : ∀ (k : key) (p q : list bool), derive k p = derive k q → p = q.

(** ** flashbax.buffers.trajectory_buffer

    The trajectory store and the sampler are the flashbax library, which
    [replay_buffers.py] imports and which is not among the sources.  They
    are modelled from the spec: the store follows its section 4.1 (a ring
    over the time axis with a write cursor and an is-full flag), the sampler
    its section 4.2 (start offsets drawn among the eligible ones, stride
    [period]).  The facade always builds the buffer with [add_batch_size=1],
    so the store has one row and [experience] is that row's time axis. *)

(** Modelled from the spec: the buffer state of section 3, field arrays
    over the time axis, write cursor and is-full flag. *)
Module TrajectoryBufferState.
Record t := mk {
  experience : list Timestep;
  current_index : nat;
  is_full : bool
}.
End TrajectoryBufferState.

(** Modelled from the spec: a sampled batch, one window per row. *)
Module TrajectoryBufferSample.
Record t := mk { experience : list (list Timestep) }.
End TrajectoryBufferSample.

Module TrajectoryBuffer.
Section WithRandom.
Context `{Random}.
(** Modelled from the spec: the bundle of pure functions that
    [make_trajectory_buffer] returns. *)
Record t := mk {
  init : Timestep → TrajectoryBufferState.t;
  add : TrajectoryBufferState.t → list Timestep → Result TrajectoryBufferState.t;
  sample : TrajectoryBufferState.t → key → TrajectoryBufferSample.t;
  can_sample : TrajectoryBufferState.t → bool
}.
End WithRandom.
End TrajectoryBuffer.

Module Flashbax.
Import TrajectoryBufferState.

(** Modelled from the spec: [init] (4.1) allocates [max_length_time_axis]
    empty slots shaped like the example timestep, cursor 0, not full. *)
Definition init (max_length_time_axis : nat) (example : Timestep) : t :=
  {| experience := replicate max_length_time_axis (map_structure empty_like example);
     current_index := 0;
     is_full := false |}.

(** Modelled from the spec: the slots written by one [add]; the batch's
    time steps go to the cursor and the slots after it, modulo the
    capacity. *)
Definition scatter (max_length_time_axis cur : nat) (batch exp : list Timestep) : list Timestep :=
  foldl (λ e it, <[(it.1 + cur) mod max_length_time_axis := it.2]> e) exp (imap pair batch).

(** Modelled from the spec: the batch has the per-field element types
    recorded at [init] (section 7 makes a type mismatch fatal); the
    library asserts it before it writes. *)
Definition dtypes_agree (exp batch : list Timestep) : bool :=
  match exp with
  | [] => true
  | e :: _ => forallb (λ x, bool_decide (tree_dtype x = tree_dtype e)) batch
  end.

(** Modelled from the spec: whether an update of shape [sb] can be
    written into a slot of shape [se].  The spec is silent on it; this
    follows the library, which writes with [x.at[...].set(y)] and so
    broadcasts [y] to the slot: [y] has no more axes than the slot and,
    aligned at the last axis, each of its axes is 1 or the slot's. *)
Definition broadcastable (sb se : list nat) : bool :=
  bool_decide (length sb ≤ length se)
  && forallb (λ be, (be.1 =? 1) || (be.1 =? be.2))
             (zip sb (drop (length se - length sb) se)).

(** Modelled from the spec: the [k] rows of [n] elements each of a
    flattened array. *)
Definition rows (k n : nat) (d : list elem) : list (list elem) :=
  (λ i, take n (drop (i * n) d)) <$> seq 0 k.

(** Modelled from the spec: the flattened contents of an array of shape
    [sb] broadcast to shape [se]: an axis the array lacks, or has with
    length 1, is repeated. *)
Fixpoint broadcast_data (sb se : list nat) (d : list elem) : list elem :=
  match se with
  | [] => d
  | e :: se' =>
      if decide (length sb ≤ length se')
      then mjoin (replicate e (broadcast_data sb se' d))
      else match sb with
           | [] => d
           | b :: sb' =>
               if decide (b = e)
               then mjoin (broadcast_data sb' se' <$> rows b (foldr Nat.mul 1 sb') d)
               else mjoin (replicate e (broadcast_data sb' se' d))
           end
  end.

(** Modelled from the spec: [jnp.broadcast_to]; an array that cannot be
    broadcast to the shape is a [ValueError]. *)
Definition broadcast_to (se : list nat) (a : Array) : Result Array :=
  if decide (shape a = se) then Ok a
  else if broadcastable (shape a) se then
    Ok {| dtype_of := dtype_of a;
          shape := se;
          data := broadcast_data (shape a) se (data a) |}
  else Err (ValueError "Incompatible shapes for broadcasting").

(** Modelled from the spec: the timestep written into a slot shaped
    like [e], field by field. *)
Definition broadcast_timestep (e b : Timestep) : Result Timestep :=
  result_bind (broadcast_to (shape (observations e)) (observations b)) (λ o,
  result_bind (broadcast_to (shape (actions e)) (actions b)) (λ a,
  result_bind (broadcast_to (shape (rewards e)) (rewards b)) (λ r,
  result_bind (broadcast_to (shape (terminals e)) (terminals b)) (λ te,
  result_bind (broadcast_to (shape (truncations e)) (truncations b)) (λ tr,
  result_bind (broadcast_to (shape (infos e)) (infos b)) (λ i,
  Ok (mkTimestep o a r te tr i))))))).

(** Modelled from the spec: the same for every time step of a batch. *)
Fixpoint broadcast_batch (e : Timestep) (batch : list Timestep) : Result (list Timestep) :=
  match batch with
  | [] => Ok []
  | b :: batch =>
      result_bind (broadcast_timestep e b) (λ b',
      result_bind (broadcast_batch e batch) (λ batch', Ok (b' :: batch')))
  end.

(** Modelled from the spec: [add] (4.1) writes at the cursor, advances it
    modulo the capacity and raises the is-full flag once it wraps.  A
    batch whose element types disagree with the ones recorded at [init],
    or that is longer than the time axis, fails the library's assertions;
    a batch that cannot be broadcast to the slots is a [ValueError] of the
    write. *)
Definition add (state : t) (batch : list Timestep) : Result t :=
  let seq_len := length batch in
  let max_length_time_axis := length (experience state) in
  if negb (dtypes_agree (experience state) batch) then
    Err (OtherError "AssertionError" "dtype mismatch")
  else if max_length_time_axis <? seq_len then
    Err (OtherError "AssertionError" "batch longer than the time axis")
  else
    result_bind
      (match experience state with
       | [] => Ok batch
       | e :: _ => broadcast_batch e batch
       end)
      (λ batch,
         let new_experience :=
           scatter max_length_time_axis (current_index state) batch (experience state) in
         let new_current_index := current_index state + seq_len in
         let new_is_full := is_full state || (max_length_time_axis <=? new_current_index) in
         Ok {| experience := new_experience;
               current_index := new_current_index mod max_length_time_axis;
               is_full := new_is_full |}).

(** Modelled from the spec: enough was written to draw a window.  The
    facade never calls it. *)
Definition can_sample (min_length_time_axis : nat) (state : t) : bool :=
  is_full state || (min_length_time_axis <=? current_index state).

(** Modelled from the spec: the number of written time steps. *)
Definition max_time (state : t) : nat :=
  if is_full state then length (experience state) else current_index state.

(** Modelled from the spec: the slot of the oldest written step. *)
Definition head (state : t) : nat :=
  if is_full state then current_index state else 0.

(** Modelled from the spec: how many start offsets [0, period,
    2*period, ...] leave room for a whole window in the written data. *)
Definition num_valid_items (state : t) (sequence_length period : nat) : nat :=
  if sequence_length <=? max_time state
  then (max_time state - sequence_length) / period + 1
  else 0.

(** Modelled from the spec: the eligible start offsets of section 4.2,
    counted from the oldest written step. *)
Definition eligible_offsets (state : t) (sequence_length period : nat) : list nat :=
  (λ item, item * period) <$> seq 0 (num_valid_items state sequence_length period).

(** Modelled from the spec: the ring index at which the window of item
    [item] starts. *)
Definition start_index (state : t) (period item : nat) : nat :=
  (head state + item * period) mod length (experience state).

(** Modelled from the spec: the window of [sequence_length] consecutive
    ring slots from [start]. *)
Definition window (state : t) (sequence_length start : nat) : list Timestep :=
  omap (λ j, experience state !! ((start + j) mod length (experience state)))
       (seq 0 sequence_length).

Section WithRandom.
Context `{Random}.

(** Modelled from the spec: the ring indices at which the sampled
    windows start.  With nothing eligible the draw is over an empty
    range and yields item 0. *)
Definition sample_starts (state : t) (rng_key : key)
    (batch_size sequence_length period : nat) : list nat :=
  start_index state period
    <$> randint rng_key batch_size (num_valid_items state sequence_length period).

(** Modelled from the spec: [sample] (4.2) draws [batch_size] items
    uniformly, with replacement, among the eligible ones and stacks
    their windows.  For a store that holds less than a window the spec
    leaves the outcome open (it fails or is undefined); the compiled
    library function cannot raise on the store's contents and returns
    the windows of the fallback draw, as here. *)
Definition sample (state : t) (rng_key : key)
    (batch_size sequence_length period : nat) : TrajectoryBufferSample.t :=
  {| TrajectoryBufferSample.experience :=
       window state sequence_length
         <$> sample_starts state rng_key batch_size sequence_length period |}.

(** Modelled from the spec: the argument check that
    [make_trajectory_buffer] runs before it builds the buffer.  The spec
    is silent on it; this follows the library, which raises a
    [ValueError] for a window longer than the time axis or a minimum
    length above it (after lifting the minimum length to the window
    length). *)
Definition validate_trajectory_buffer_args
    (add_batch_size sample_sequence_length period min_length_time_axis max_size : nat)
    : Result nat :=
  let max_length_time_axis := max_size / add_batch_size in
  let min_length_time_axis :=
    if min_length_time_axis <? sample_sequence_length
    then sample_sequence_length else min_length_time_axis in
  if max_length_time_axis <? sample_sequence_length then
    Err (ValueError "sample_sequence_length must be at most max_length_time_axis")
  else if max_length_time_axis <? min_length_time_axis then
    Err (ValueError "min_length_time_axis must be at most max_length_time_axis")
  else Ok min_length_time_axis.

(** Modelled from the spec: [make_trajectory_buffer] checks its
    arguments and binds them into the buffer's functions. *)
Definition make_trajectory_buffer
    (add_batch_size sample_batch_size sample_sequence_length period
     min_length_time_axis max_size : nat) : Result TrajectoryBuffer.t :=
  result_bind
    (validate_trajectory_buffer_args add_batch_size sample_sequence_length
       period min_length_time_axis max_size)
    (λ min_length_time_axis,
       Ok {| TrajectoryBuffer.init := init (max_size / add_batch_size);
             TrajectoryBuffer.add := add;
             TrajectoryBuffer.sample := λ state rng_key,
               sample state rng_key sample_batch_size sample_sequence_length period;
             TrajectoryBuffer.can_sample := can_sample min_length_time_axis |}).
End WithRandom.
End Flashbax.

(** ** flashbax.vault *)

(** Modelled from the spec: the snapshot store is the flashbax library.
    [Vault(vault_name, vault_uid, rel_dir).read()] reads a stored buffer
    state from disk, or raises; the disk is an explicit argument that maps
    the storage root, the vault name and the dataset name to the outcome of
    the read. *)
Module Vault.
Definition disk := string → string → string → Result TrajectoryBufferState.t.

Definition read (d : disk) (vault_name vault_uid rel_dir : string)
    : Result TrajectoryBufferState.t :=
  d rel_dir vault_name vault_uid.
End Vault.

(** ** The ring invariant

    [ring_inv cap sh ts s]: [s] is the store of capacity [cap] after the
    timesteps [ts], all of element types and shapes [sh], were written to it
    in order; the slots past them are still the zero-filled ones of the
    allocation. *)

Record ring_inv (cap : nat) (sh : list dtype * list (list nat)) (ts : list Timestep)
    (s : TrajectoryBufferState.t) : Prop := mk_ring_inv {
  ring_length : length (TrajectoryBufferState.experience s) = cap;
  ring_index : TrajectoryBufferState.current_index s = length ts mod cap;
  ring_full : TrajectoryBufferState.is_full s = bool_decide (cap ≤ length ts);
  ring_shapes : Forall (λ e, tree_spec e = sh) (TrajectoryBufferState.experience s);
  ring_prefix :
    length ts ≤ cap → take (length ts) (TrajectoryBufferState.experience s) = ts;
  ring_rotate :
    cap ≤ length ts →
    drop (length ts mod cap) (TrajectoryBufferState.experience s)
      ++ take (length ts mod cap) (TrajectoryBufferState.experience s)
    = drop (length ts - cap) ts;
  ring_unwritten :
    Forall (λ e, map_structure empty_like e = e)
           (drop (length ts) (TrajectoryBufferState.experience s))
}.

(** ** The facade: [FlashbaxReplayBuffer] *)

Section Facade.
Context `{Random}.

Record FlashbaxReplayBuffer := mkFlashbaxReplayBuffer {
  _sequence_length : nat;
  _max_size : nat;
  _batch_size : nat;
  _replay_buffer : TrajectoryBuffer.t;
  _buffer_sample_fn : TrajectoryBufferState.t → key → TrajectoryBufferSample.t;
  _buffer_add_fn : TrajectoryBufferState.t → list Timestep → Result TrajectoryBufferState.t;
  _buffer_state : option TrajectoryBufferState.t;
  _rng_key : key
}.

(** [jax.jit] compiles a pure function and leaves its meaning alone. *)
Definition jit {A : Type} (f : A) : A := f.

(** *** Methods run on [self]: state passing, with exceptions

    A method takes the object and returns the object as the call leaves
    it together with a value or the exception raised; assignments made
    before an exception stay. *)

Definition M (A : Type) : Type := FlashbaxReplayBuffer → FlashbaxReplayBuffer * Result A.

Global Instance M_ret : MRet M := λ A a self, (self, Ok a).

Global Instance M_bind : MBind M := λ A B f m self,
  match m self with
  | (self', Ok a) => f a self'
  | (self', Err e) => (self', Err e)
  end.

Definition get_self : M FlashbaxReplayBuffer := λ self, (self, Ok self).

Definition lift {A} (r : Result A) : M A := λ self, (self, r).

(** [try: body / except ValueError: handler] *)
Definition try_except_ValueError {A} (body handler : M A) : M A := λ self,
  match body self with
  | (self', Err e) => if is_ValueError e then handler self' else (self', Err e)
  | done => done
  end.

Definition set_buffer_state (v : option TrajectoryBufferState.t) : M unit := λ self,
  (mkFlashbaxReplayBuffer (_sequence_length self) (_max_size self) (_batch_size self)
     (_replay_buffer self) (_buffer_sample_fn self) (_buffer_add_fn self)
     v (_rng_key self), Ok ()).

Definition set_max_size (v : nat) : M unit := λ self,
  (mkFlashbaxReplayBuffer (_sequence_length self) v (_batch_size self)
     (_replay_buffer self) (_buffer_sample_fn self) (_buffer_add_fn self)
     (_buffer_state self) (_rng_key self), Ok ()).

Definition set_replay_buffer (v : TrajectoryBuffer.t) : M unit := λ self,
  (mkFlashbaxReplayBuffer (_sequence_length self) (_max_size self) (_batch_size self)
     v (_buffer_sample_fn self) (_buffer_add_fn self)
     (_buffer_state self) (_rng_key self), Ok ()).

Definition set_buffer_sample_fn
    (v : TrajectoryBufferState.t → key → TrajectoryBufferSample.t) : M unit := λ self,
  (mkFlashbaxReplayBuffer (_sequence_length self) (_max_size self) (_batch_size self)
     (_replay_buffer self) v (_buffer_add_fn self)
     (_buffer_state self) (_rng_key self), Ok ()).

Definition set_buffer_add_fn
    (v : TrajectoryBufferState.t → list Timestep → Result TrajectoryBufferState.t)
    : M unit := λ self,
  (mkFlashbaxReplayBuffer (_sequence_length self) (_max_size self) (_batch_size self)
     (_replay_buffer self) (_buffer_sample_fn self) v
     (_buffer_state self) (_rng_key self), Ok ()).

Definition set_rng_key (v : key) : M unit := λ self,
  (mkFlashbaxReplayBuffer (_sequence_length self) (_max_size self) (_batch_size self)
     (_replay_buffer self) (_buffer_sample_fn self) (_buffer_add_fn self)
     (_buffer_state self) v, Ok ()).

(** A library function applied to [self._buffer_state]: when that is still
    [None], reading the state's fields raises. *)
Definition on_state {A} (f : TrajectoryBufferState.t → Result A)
    (state : option TrajectoryBufferState.t) : Result A :=
  match state with
  | Some s => f s
  | None => Err (AttributeError "'NoneType' object has no attribute 'experience'")
  end.

(** [__init__] (lines 30-56).  The buffer is built before the object is
    complete, so a rejected configuration leaves no object. *)
Definition __init__ (sequence_length max_size batch_size sample_period : nat) (seed : Z)
    : Result FlashbaxReplayBuffer :=
  result_bind
    (Flashbax.make_trajectory_buffer 1 batch_size sequence_length sample_period 1 max_size)
    (λ replay_buffer,
       Ok {| _sequence_length := sequence_length;
             _max_size := max_size;
             _batch_size := batch_size;
             _replay_buffer := replay_buffer;
             _buffer_sample_fn := jit (TrajectoryBuffer.sample replay_buffer);
             _buffer_add_fn := jit (TrajectoryBuffer.add replay_buffer);
             _buffer_state := None;
             _rng_key := PRNGKey seed |}).

(** [tree.map_structure(lambda x: jnp.array(x)[jnp.newaxis, jnp.newaxis,
    ...], timestep)] (lines 79-81): every field becomes a jax array, and
    the timestep one row of one time step. *)
Definition add_batch_time_dims (timestep : Timestep) : list Timestep :=
  [map_structure (λ x, jnp_array x) timestep].

(** [add] (lines 58-82) *)
Definition add (observations actions rewards terminals truncations infos : Array) : M unit :=
  let timestep := mkTimestep observations actions rewards terminals truncations infos in
  self ← get_self;
  (if _buffer_state self is None
   then set_buffer_state (Some (TrajectoryBuffer.init (_replay_buffer self) timestep))
   else mret ());;
  let timestep := add_batch_time_dims timestep in
  self ← get_self;
  new_state ← lift (on_state (λ s, _buffer_add_fn self s timestep) (_buffer_state self));
  set_buffer_state (Some new_state).

(** [sample] (lines 84-87) *)
Definition sample : M (list (list Timestep)) :=
  self ← get_self;
  let '(rng_key, sample_key) := split (_rng_key self) in
  set_rng_key rng_key;;
  self ← get_self;
  batch ← lift (on_state (λ s, Ok (_buffer_sample_fn self s sample_key)) (_buffer_state self));
  mret (TrajectoryBufferSample.experience batch).

(** [populate_from_vault] (lines 89-119) *)
Definition populate_from_vault (d : Vault.disk)
    (env_name scenario_name dataset_name rel_dir : string) : M bool :=
  try_except_ValueError
    (buffer_state ← lift (Vault.read d (env_name +:+ "/" +:+ scenario_name +:+ ".vlt")
                            dataset_name rel_dir);
     set_buffer_state (Some buffer_state);;
     self ← get_self;
     current_index ← lift (on_state (λ s, Ok (TrajectoryBufferState.current_index s))
                             (_buffer_state self));
     set_max_size current_index;;
     self ← get_self;
     replay_buffer ← lift (Flashbax.make_trajectory_buffer 1 (_batch_size self)
                             (_sequence_length self) 1 1 (_max_size self));
     set_replay_buffer replay_buffer;;
     self ← get_self;
     set_buffer_sample_fn (jit (TrajectoryBuffer.sample (_replay_buffer self)));;
     self ← get_self;
     set_buffer_add_fn (jit (TrajectoryBuffer.add (_replay_buffer self)));;
     mret true)
    (mret false).

(** *** Call histories

    A caller drives the object through a sequence of method calls; a call
    that raises leaves the object as it was at the raise and the caller
    may go on. *)

Inductive Call :=
  | CallAdd (observations actions rewards terminals truncations infos : Array)
  | CallSample
  | CallPopulate (d : Vault.disk) (env_name scenario_name dataset_name rel_dir : string).

Inductive Returned :=
  | RetNone
  | RetBatch (batch : list (list Timestep))
  | RetBool (b : bool).

Definition call (c : Call) : M Returned :=
  match c with
  | CallAdd o a r te tr i => add o a r te tr i;; mret RetNone
  | CallSample => batch ← sample; mret (RetBatch batch)
  | CallPopulate d e s n r => b ← populate_from_vault d e s n r; mret (RetBool b)
  end.

Fixpoint run (calls : list Call) (self : FlashbaxReplayBuffer)
    : FlashbaxReplayBuffer * list (Result Returned) :=
  match calls with
  | [] => (self, [])
  | c :: calls =>
      let '(self, r) := call c self in
      let '(self, rs) := run calls self in
      (self, r :: rs)
  end.

Definition add_call (t : Timestep) : Call :=
  CallAdd (observations t) (actions t) (rewards t) (terminals t) (truncations t) (infos t).

(** The timesteps a history adds, in call order, and whether it is made
    of [add] and [sample] calls only. *)
Definition added (calls : list Call) : list Timestep :=
  omap (λ c, match c with
             | CallAdd o a r te tr i => Some (mkTimestep o a r te tr i)
             | _ => None
             end) calls.

Definition is_populate (c : Call) : bool :=
  match c with CallPopulate _ _ _ _ _ => true | _ => false end.

Definition no_populate (calls : list Call) : bool := forallb (λ c, negb (is_populate c)) calls.

Definition is_sample (c : Call) : bool :=
  match c with CallSample => true | _ => false end.

(** The key each [sample] call of a history hands to the sampler. *)
Fixpoint sample_keys (calls : list Call) (self : FlashbaxReplayBuffer) : list key :=
  match calls with
  | [] => []
  | c :: calls =>
      (if is_sample c then [(split (_rng_key self)).2] else [])
        ++ sample_keys calls (call c self).1
  end.

(** All timesteps of a list have, once made jax arrays, the element
    types and shapes of the first. *)
Definition same_specs (ts : list Timestep) : bool :=
  match ts with
  | [] => true
  | t0 :: ts =>
      forallb (λ t, bool_decide (tree_spec (as_stored t) = tree_spec (as_stored t0))) ts
  end.

(** What can be read back from the store, oldest first: the written
    prefix of the time axis, or the whole ring from the cursor once it is
    full. *)
Definition stored (state : option TrajectoryBufferState.t) : list Timestep :=
  match state with
  | None => []
  | Some s =>
      let i := TrajectoryBufferState.current_index s in
      let e := TrajectoryBufferState.experience s in
      if TrajectoryBufferState.is_full s then drop i e ++ take i e else take i e
  end.

(** The object's functions are the ones flashbax built for its window
    length and batch size, with some period. *)
Definition built_by_flashbax (self : FlashbaxReplayBuffer) (period : nat) : Prop :=
  _buffer_sample_fn self
    = (λ state rng_key,
         Flashbax.sample state rng_key (_batch_size self) (_sequence_length self) period)
  ∧ _buffer_add_fn self = Flashbax.add.

(** The object with one attribute reassigned. *)
Definition with_state (self : FlashbaxReplayBuffer) (v : option TrajectoryBufferState.t)
    : FlashbaxReplayBuffer := (set_buffer_state v self).1.

Definition with_key (self : FlashbaxReplayBuffer) (v : key) : FlashbaxReplayBuffer :=
  (set_rng_key v self).1.

Definition with_max_size (self : FlashbaxReplayBuffer) (v : nat) : FlashbaxReplayBuffer :=
  (set_max_size v self).1.

(** [tracks f0 sh ts n self]: [self] is the freshly built [f0] after the
    timesteps stored as [ts], of element types and shapes [sh], were added
    and [n] samples drawn. *)
Definition tracks (f0 : FlashbaxReplayBuffer) (sh : list dtype * list (list nat))
    (ts : list Timestep) (n : nat) (self : FlashbaxReplayBuffer) : Prop :=
  ∃ state,
    self = mkFlashbaxReplayBuffer (_sequence_length f0) (_max_size f0) (_batch_size f0)
             (_replay_buffer f0) (_buffer_sample_fn f0) (_buffer_add_fn f0)
             state (derive (_rng_key f0) (replicate n false))
    ∧ match ts with
      | [] => state = None
      | _ :: _ => ∃ s, state = Some s ∧ ring_inv (_max_size f0) sh ts s
      end.
End Facade.

(** ** A reference generator

    Keys are a seed and the path of splits taken from it; draws are a
    counter reduced below the bound.  It is used to run the facade on
    concrete inputs. *)

Definition path_key : Type := Z * list bool.

Definition path_PRNGKey (seed : Z) : path_key := (seed, []).

Definition path_split (k : path_key) : path_key * path_key :=
  ((k.1, k.2 ++ [false]), (k.1, k.2 ++ [true])).

Definition path_randint (k : path_key) (n b : nat) : list nat :=
  if decide (b = 0) then replicate n 0
  else (λ i, (Z.to_nat (Z.abs k.1) + length k.2 + i) mod b) <$> seq 0 n.

#[global, refine] Instance PathKeys : Random :=
  {| key := path_key; PRNGKey := path_PRNGKey;
     split := path_split; randint := path_randint |}.
Proof.
  - intros k n b. unfold path_randint. case_decide.
    + apply length_replicate.
    + by rewrite length_fmap, length_seq.
  - intros k n b Hb. unfold path_randint. case_decide; [lia|].
    apply Forall_fmap, Forall_forall. intros i _.
    apply Nat.mod_upper_bound. lia.
  - reflexivity.
Defined.

(** ** Fixtures

    Timesteps that differ in their reward, and a disk with two vaults. *)

Definition scalar (z : Z) : Array := mkArray int32 [] [Num z].

Definition reward_step (r : Z) : Timestep :=
  mkTimestep (mkArray int32 [2] [Num r; Num r])
    (scalar 0) (scalar r) (scalar 0) (scalar 0) (scalar 0).

Definition reward_steps (n : nat) : list Timestep :=
  (λ i, reward_step (Z.of_nat i)) <$> seq 0 n.

Definition integer (x : elem) : Z := match x with Num z => z | Flt _ => 0%Z end.

Definition rewards_of (ts : list Timestep) : list (list Z) :=
  (λ t, integer <$> data (rewards t)) <$> ts.

(** The dataset [short] holds two timesteps, [good] six; any other name
    is not on the disk. *)
Definition disk0 : Vault.disk := λ rel_dir vault_name vault_uid,
  if bool_decide (vault_uid = "short") then
    Ok (TrajectoryBufferState.mk (reward_steps 2) 2 true)
  else if bool_decide (vault_uid = "good") then
    Ok (TrajectoryBufferState.mk (reward_steps 6) 6 true)
  else Err (ValueError "vault not found").

(** The object a caller holds after building the facade and making the
    calls, if the configuration is accepted. *)
Definition facade_after (sequence_length max_size batch_size sample_period : nat)
    (seed : Z) (calls : list Call) : option FlashbaxReplayBuffer :=
  match __init__ sequence_length max_size batch_size sample_period seed with
  | Ok f0 => Some (run calls f0).1
  | Err _ => None
  end.

(** ** Further notions used to state properties of histories *)

Section Histories.
Context `{Random}.

Definition is_add (c : Call) : bool :=
  match c with CallAdd _ _ _ _ _ _ => true | _ => false end.

(** The history with its [sample] calls left out. *)
Definition drop_samples (calls : list Call) : list Call :=
  filter (λ c, negb (is_sample c)) calls.

(** Two objects that differ at most in their key. *)
Definition same_but_key (a b : FlashbaxReplayBuffer) : Prop := ∃ k, a = with_key b k.
End Histories.

(** A timestep whose observation has another shape than [reward_step]'s,
    and a disk whose reads fail with an error that is not a [ValueError]. *)
Definition wide_step (r : Z) : Timestep :=
  mkTimestep (mkArray int32 [3] [Num r; Num r; Num r])
    (scalar 0) (scalar r) (scalar 0) (scalar 0) (scalar 0).

(** A timestep like [reward_step]'s but with a 64-bit integer reward, as
    numpy makes it from a Python int. *)
Definition int64_step (r : Z) : Timestep :=
  mkTimestep (mkArray int32 [2] [Num 0; Num 0])
    (scalar 0) (mkArray int64 [] [Num r]) (scalar 0) (scalar 0) (scalar 0).

Definition broken_disk : Vault.disk := λ rel_dir vault_name vault_uid,
  Err (OtherError "OSError" "cannot open the vault").

(** * Properties of the store *)

Lemma empty_like_idemp a : empty_like (empty_like a) = empty_like a.
Proof.
  destruct a as [d sh xs]. unfold empty_like. simpl. f_equal.
  - by destruct d.
  - rewrite length_replicate. by destruct d.
Qed.

Lemma empty_step_idemp t :
  map_structure empty_like (map_structure empty_like t) = map_structure empty_like t.
Proof. unfold map_structure. simpl. by rewrite !empty_like_idemp. Qed.

Lemma init_ring cap t :
  0 < cap → ring_inv cap (tree_spec (as_stored t)) [] (Flashbax.init cap t).
Proof.
  intros Hcap. split; simpl.
  - apply length_replicate.
  - by rewrite Nat.Div0.mod_0_l.
  - rewrite bool_decide_eq_false_2; [done | lia].
  - apply Forall_replicate. reflexivity.
  - reflexivity.
  - lia.
  - apply Forall_replicate, empty_step_idemp.
Qed.

Lemma rotate_insert {A} (l : list A) (h : nat) (x : A) :
  h < length l →
  drop ((h + 1) mod length l) (<[h:=x]> l) ++ take ((h + 1) mod length l) (<[h:=x]> l)
  = drop 1 (drop h l ++ take h l) ++ [x].
Proof.
  intros Hh.
  destruct (l !! h) as [y|] eqn:Hy; [|apply lookup_ge_None in Hy; lia].
  assert (drop h l = y :: drop (S h) l) as Hd by (by apply drop_S).
  rewrite Hd. simpl. rewrite drop_0.
  destruct (decide (h + 1 = length l)) as [Hlast|Hmid].
  - rewrite Hlast, Nat.Div0.mod_same. simpl. rewrite drop_0.
    rewrite insert_take_drop by done.
    rewrite (drop_ge l (S h)) by lia. by rewrite app_nil_r.
  - rewrite Nat.mod_small by lia.
    rewrite drop_insert_lt by lia.
    replace (h + 1) with (S h) by lia.
    rewrite (take_S_r _ h x) by (by apply list_lookup_insert_eq).
    rewrite take_insert_ge by lia.
    by rewrite app_assoc.
Qed.

Lemma broadcast_to_same a sh : shape a = sh → Flashbax.broadcast_to sh a = Ok a.
Proof. intros E. unfold Flashbax.broadcast_to. by rewrite decide_True. Qed.

Lemma broadcast_timestep_same e t :
  tree_shape t = tree_shape e → Flashbax.broadcast_timestep e t = Ok t.
Proof.
  intros [= Ho Ha Hr Hte Htr Hi]. unfold Flashbax.broadcast_timestep.
  rewrite !broadcast_to_same by done. simpl. by destruct t.
Qed.

Lemma add_same_spec e0 exp0 cur full t :
  tree_dtype t = tree_dtype e0 → tree_shape t = tree_shape e0 →
  let exp := e0 :: exp0 in
  Flashbax.add (TrajectoryBufferState.mk exp cur full) [t]
  = Ok (TrajectoryBufferState.mk
          (Flashbax.scatter (length exp) cur [t] exp)
          ((cur + 1) mod length exp)
          (full || (length exp <=? cur + 1))).
Proof.
  intros Hd Hs exp. unfold Flashbax.add.
  cbn [TrajectoryBufferState.experience TrajectoryBufferState.current_index
       TrajectoryBufferState.is_full].
  unfold exp at 1. cbn [Flashbax.dtypes_agree forallb].
  rewrite (bool_decide_eq_true_2 _ Hd). cbn [andb negb].
  destruct (length exp <? length [t]) eqn:Hlt.
  { apply Nat.ltb_lt in Hlt. simpl in Hlt. lia. }
  unfold exp at 1. cbn [Flashbax.broadcast_batch].
  by rewrite (broadcast_timestep_same _ _ Hs).
Qed.

Lemma add_ring cap sh ts s t :
  0 < cap → ring_inv cap sh ts s → tree_spec t = sh →
  ∃ s', Flashbax.add s [t] = Ok s' ∧ ring_inv cap sh (ts ++ [t]) s'.
Proof.
  intros Hcap [Hlen Hidx Hfull Hsh Hpre Hrot Hunw] Ht.
  destruct s as [exp cur full]; simpl in *.
  assert (Hcur : cur < length exp).
  { rewrite Hidx, Hlen. apply Nat.mod_upper_bound. lia. }
  assert (∃ e0 exp0, exp = e0 :: exp0 ∧ tree_spec t = tree_spec e0)
    as (e0 & exp0 & Hexp & E).
  { destruct exp as [|e0 exp0]; [simpl in Hcur; lia|].
    apply Forall_cons in Hsh as [He _]. exists e0, exp0. split; [done | congruence]. }
  apply pair_equal_spec in E as [Hd Hs].
  pose proof (add_same_spec e0 exp0 cur full t Hd Hs) as Hadd.
  cbv zeta in Hadd. rewrite <- Hexp in Hadd.
  clear Hexp Hd Hs e0 exp0. rewrite Hadd. clear Hadd.
  eexists. split; [reflexivity|].
  unfold Flashbax.scatter. simpl.
  rewrite (Nat.mod_small cur) by done.
  assert (Hmod : (cur + 1) mod length exp = length (ts ++ [t]) mod cap).
  { rewrite length_app. simpl. rewrite Hidx, Hlen.
    by rewrite Nat.Div0.add_mod_idemp_l. }
  split; simpl.
  - by rewrite length_insert.
  - exact Hmod.
  - rewrite length_app; simpl. rewrite Hfull.
    destruct (decide (cap ≤ length ts)) as [Hge|Hlt2].
    + rewrite !bool_decide_eq_true_2 by lia. done.
    + rewrite bool_decide_eq_false_2 by done. simpl.
      rewrite Nat.mod_small in Hidx by lia. subst cur.
      destruct (decide (cap ≤ length ts + 1)).
      * rewrite bool_decide_eq_true_2 by done. apply Nat.leb_le. lia.
      * rewrite bool_decide_eq_false_2 by done. apply Nat.leb_gt. lia.
  - apply Forall_insert; [done | by subst].
  - rewrite length_app; simpl. intros Hle.
    rewrite Nat.mod_small in Hidx by lia. subst cur.
    replace (length ts + 1) with (S (length ts)) by lia.
    rewrite (take_S_r _ _ t) by (by apply list_lookup_insert_eq).
    rewrite take_insert_ge by lia. rewrite Hpre by lia. done.
  - rewrite <- Hmod. rewrite length_app; simpl. intros Hge.
    rewrite rotate_insert by done.
    destruct (decide (cap ≤ length ts)) as [Hfull'|Hnot].
    + rewrite Hidx, Hrot by done.
      rewrite drop_app_le by lia. rewrite drop_drop.
      do 2 f_equal. lia.
    + assert (length ts + 1 = cap) as Heq by lia.
      rewrite Nat.mod_small in Hidx by lia. subst cur.
      replace (length ts + 1 - cap) with 0 by lia. rewrite drop_0.
      destruct (exp !! length ts) as [y|] eqn:Hy; [|apply lookup_ge_None in Hy; lia].
      rewrite (drop_S _ y _ Hy). rewrite (drop_ge exp (S (length ts))) by lia.
      simpl. rewrite drop_0. by rewrite Hpre by lia.
  - rewrite length_app; simpl.
    destruct (decide (cap ≤ length ts)) as [Hge|Hlt2].
    + rewrite drop_ge; [done | rewrite length_insert; lia].
    + rewrite Nat.mod_small in Hidx by lia. subst cur.
      rewrite drop_insert_lt by lia.
      rewrite <- drop_drop. by apply Forall_drop.
Qed.

Section FacadeProps.
Context `{Random}.

Lemma add_unfold self t :
  add (observations t) (actions t) (rewards t) (terminals t) (truncations t) (infos t) self
  = let s0 := match _buffer_state self with
              | None => TrajectoryBuffer.init (_replay_buffer self) t
              | Some s => s
              end in
    match _buffer_add_fn self s0 [as_stored t] with
    | Ok s' => (with_state self (Some s'), Ok ())
    | Err e => (with_state self (Some s0), Err e)
    end.
Proof.
  destruct self as [L cap B rb sf af [s|] k], t; simpl;
    unfold add, mbind, M_bind, get_self, lift, on_state, set_buffer_state,
           with_state, add_batch_time_dims; simpl.
  - destruct (af s _); reflexivity.
  - destruct (af _ _); reflexivity.
Qed.

Lemma sample_unfold self :
  sample self
  = (with_key self (split (_rng_key self)).1,
     on_state (λ s, Ok (TrajectoryBufferSample.experience
                          (_buffer_sample_fn self s (split (_rng_key self)).2)))
              (_buffer_state self)).
Proof.
  destruct self as [L cap B rb sf af st k]; simpl.
  unfold sample, mbind, M_bind, get_self; simpl.
  destruct (split k) as [k1 k2]; simpl.
  destruct st; reflexivity.
Qed.

Lemma init_inv L cap B p seed f0 :
  __init__ L cap B p seed = Ok f0 →
  L ≤ cap ∧ 0 < cap
  ∧ f0 = mkFlashbaxReplayBuffer L cap B (_replay_buffer f0)
           (λ s k, Flashbax.sample s k B L p) Flashbax.add None (PRNGKey seed)
  ∧ TrajectoryBuffer.init (_replay_buffer f0) = Flashbax.init cap.
Proof.
  unfold __init__, Flashbax.make_trajectory_buffer, Flashbax.validate_trajectory_buffer_args.
  rewrite Nat.div_1_r.
  destruct (cap <? L) eqn:HL; [discriminate|].
  apply Nat.ltb_ge in HL.
  destruct (cap <? (if 1 <? L then L else 1)) eqn:Hmin; [discriminate|].
  apply Nat.ltb_ge in Hmin.
  cbn [result_bind]. intros [= <-]. cbn [_replay_buffer TrajectoryBuffer.init].
  split; [done|]. split; [destruct (1 <? L) eqn:E; [apply Nat.ltb_lt in E|]; lia|]. split; reflexivity.
Qed.

Lemma derive_app (k : key) p q : derive k (p ++ q) = derive (derive k p) q.
Proof. revert k. induction p as [|b p IH]; intros k; [done|]. simpl. apply IH. Qed.

Lemma derive_keep (k : key) n :
  (split (derive k (replicate n false))).1 = derive k (replicate (S n) false).
Proof. by rewrite replicate_S_end, derive_app. Qed.

Lemma derive_hand (k : key) n :
  (split (derive k (replicate n false))).2 = derive k (replicate n false ++ [true]).
Proof. by rewrite derive_app. Qed.

Lemma run_cons c calls self :
  run (c :: calls) self
  = ((run calls (call c self).1).1, (call c self).2 :: (run calls (call c self).1).2).
Proof.
  cbn [run]. destruct (call c self) as [self1 r]. cbn [fst snd].
  by destruct (run calls self1).
Qed.

Lemma run_app calls1 calls2 self :
  run (calls1 ++ calls2) self
  = ((run calls2 (run calls1 self).1).1,
     (run calls1 self).2 ++ (run calls2 (run calls1 self).1).2).
Proof.
  revert self. induction calls1 as [|c cs IH]; intros self; simpl.
  - by destruct (run calls2 self).
  - destruct (call c self) as [self1 r]. rewrite IH.
    destruct (run cs self1) as [self2 rs]. simpl.
    by destruct (run calls2 self2).
Qed.

Lemma run_tracks f0 L cap B p seed sh calls :
  __init__ L cap B p seed = Ok f0 →
  ∀ ts n self,
    tracks f0 sh ts n self →
    no_populate calls = true →
    Forall (λ t, tree_spec (as_stored t) = sh) (added calls) →
    tracks f0 sh (ts ++ (as_stored <$> added calls))
           (n + length (filter is_sample calls))
           (run calls self).1
    ∧ Forall2 (λ c r, is_sample c = false → r = Ok RetNone) calls (run calls self).2.
Proof.
  intros Hinit. destruct (init_inv _ _ _ _ _ _ Hinit) as (HL & Hcap & Hf0 & Hini).
  assert (_max_size f0 = cap) as Hms by (by rewrite Hf0).
  assert (_buffer_add_fn f0 = Flashbax.add) as Haf by (by rewrite Hf0).
  clear Hf0.
  induction calls as [|c cs IH]; intros ts n self Htr Hnp Hsh.
  - simpl. rewrite app_nil_r, Nat.add_0_r. by split.
  - simpl in Hnp. apply andb_true_iff in Hnp as [Hc Hnp].
    destruct c as [o a r te tr i| |]; [| |done].
    + (* add *)
      change (added (CallAdd o a r te tr i :: cs))
        with (mkTimestep o a r te tr i :: added cs) in *.
      set (t := mkTimestep o a r te tr i) in *.
      apply Forall_cons in Hsh as [Ht Hsh].
      assert (∃ s', call (CallAdd o a r te tr i) self
                    = (with_state self (Some s'), Ok RetNone)
                    ∧ ring_inv cap sh (ts ++ [as_stored t]) s') as (s' & Hcall & Hring).
      { destruct Htr as (state & -> & Hst).
        unfold call, mbind, M_bind.
        pose proof (add_unfold
          (mkFlashbaxReplayBuffer (_sequence_length f0) (_max_size f0) (_batch_size f0)
             (_replay_buffer f0) (_buffer_sample_fn f0) (_buffer_add_fn f0) state
             (derive (_rng_key f0) (replicate n false))) t) as Hadd.
        simpl in Hadd. rewrite Hadd. clear Hadd.
        rewrite Hini, Haf.
        destruct ts as [|t0 ts'].
        - subst state.
          destruct (add_ring cap sh [] (Flashbax.init cap t) (as_stored t) Hcap)
            as (s' & -> & Hr); [rewrite <- Ht; by apply init_ring | done |].
          exists s'. by split.
        - destruct Hst as (s & -> & Hr0). rewrite Hms in Hr0.
          destruct (add_ring cap sh _ s (as_stored t) Hcap Hr0 Ht) as (s' & -> & Hr).
          exists s'. by split. }
      rewrite run_cons, Hcall.
      specialize (IH (ts ++ [as_stored t]) n (with_state self (Some s'))).
      cbn [fst snd filter is_sample list_filter].
      rewrite <- app_assoc in IH. simpl in IH.
      destruct IH as [IH1 IH2]; [|done|done|].
      { destruct Htr as (state & -> & _). eexists. split; [reflexivity|].
        destruct (ts ++ [as_stored t]) eqn:E; [by destruct ts|].
        exists s'. split; [done|]. by rewrite Hms. }
      split; [done|]. constructor; [done|done].
    + (* sample *)
      rewrite run_cons.
      assert ((call CallSample self).1 = with_key self (split (_rng_key self)).1) as ->.
      { unfold call, mbind, M_bind. rewrite sample_unfold. by destruct (on_state _ _). }
      change (added (CallSample :: cs)) with (added cs) in *.
      specialize (IH ts (S n) (with_key self (split (_rng_key self)).1)).
      destruct IH as [IH1 IH2]; [|done|done|].
      { destruct Htr as (state & -> & Hst). exists state. split; [|done].
        unfold with_key, set_rng_key. simpl. by rewrite derive_keep. }
      cbn [fst snd]. split.
      * replace (n + length (filter is_sample (CallSample :: cs)))
          with (S n + length (filter is_sample cs)); [done|].
        rewrite filter_cons_True by done. simpl. lia.
      * constructor; [done|done].
Qed.
End FacadeProps.

(** * Properties of the sampler *)

Lemma omap_seq_lookup {A} (f : nat → option A) a n j :
  (∀ i, a ≤ i < a + n → is_Some (f i)) → j < n → omap f (seq a n) !! j = f (a + j).
Proof.
  revert a j. induction n as [|n IH]; intros a j Hf Hj; [lia|].
  simpl. destruct (Hf a) as [x Hx]; [lia|]. rewrite Hx.
  destruct j as [|j]; simpl.
  - by rewrite Nat.add_0_r.
  - rewrite IH; [f_equal; lia | intros i Hi; apply Hf; lia | lia].
Qed.

Lemma omap_seq_length {A} (f : nat → option A) a n :
  (∀ i, a ≤ i < a + n → is_Some (f i)) → length (omap f (seq a n)) = n.
Proof.
  revert a. induction n as [|n IH]; intros a Hf; [done|].
  simpl. destruct (Hf a) as [x Hx]; [lia|]. rewrite Hx. simpl.
  rewrite IH; [done|]. intros i Hi. apply Hf. lia.
Qed.

Section Window.
Import TrajectoryBufferState.

Lemma window_slot_is_Some (s : t) start j :
  0 < length (experience s) →
  is_Some (experience s !! ((start + j) mod length (experience s))).
Proof. intros Hlen. apply lookup_lt_is_Some_2, Nat.mod_upper_bound. lia. Qed.

Lemma window_length (s : t) L start :
  0 < length (experience s) → length (Flashbax.window s L start) = L.
Proof.
  intros Hlen. apply omap_seq_length. intros i _. by apply window_slot_is_Some.
Qed.

Lemma window_lookup (s : t) L start j :
  0 < length (experience s) → j < L →
  Flashbax.window s L start !! j
  = experience s !! ((start + j) mod length (experience s)).
Proof.
  intros Hlen Hj. unfold Flashbax.window.
  rewrite omap_seq_lookup; [done | | done].
  intros i _. by apply window_slot_is_Some.
Qed.

(** A window that stays inside the written prefix reads the timesteps
    that were added there. *)
Lemma window_in_prefix (s : t) ts L o :
  0 < length (experience s) →
  length ts ≤ length (experience s) →
  take (length ts) (experience s) = ts →
  o + L ≤ length ts →
  Flashbax.window s L o = take L (drop o ts).
Proof.
  intros Hlen Hle Hpre Hin. apply list_eq. intros j.
  destruct (decide (j < L)) as [Hj|Hj].
  - rewrite window_lookup by done.
    rewrite Nat.mod_small by lia.
    rewrite lookup_take_lt, lookup_drop by done.
    rewrite <- Hpre. by rewrite lookup_take_lt by lia.
  - rewrite lookup_take_ge by lia.
    apply lookup_ge_None. rewrite window_length by done. lia.
Qed.

(** On a store that has not wrapped, the written count is the number of
    adds and the data starts at slot 0. *)
Lemma ring_max_time cap sh ts (s : t) :
  0 < cap → ring_inv cap sh ts s → length ts ≤ cap → Flashbax.max_time s = length ts.
Proof.
  intros Hcap [Hlen Hidx Hfull _ _ _ _] Hle. unfold Flashbax.max_time.
  rewrite Hfull. case_bool_decide.
  - rewrite Hlen. lia.
  - rewrite Hidx. apply Nat.mod_small. lia.
Qed.

Lemma ring_head cap sh ts (s : t) :
  0 < cap → ring_inv cap sh ts s → length ts ≤ cap → Flashbax.head s = 0.
Proof.
  intros Hcap [Hlen Hidx Hfull _ _ _ _] Hle. unfold Flashbax.head.
  rewrite Hfull. case_bool_decide; [|done].
  rewrite Hidx. replace (length ts) with cap by lia. apply Nat.Div0.mod_same.
Qed.

Lemma item_offset_bound (s : t) L p i :
  i < Flashbax.num_valid_items s L p → i * p + L ≤ Flashbax.max_time s.
Proof.
  unfold Flashbax.num_valid_items.
  destruct (L <=? Flashbax.max_time s) eqn:HL; [|lia].
  apply Nat.leb_le in HL. intros Hi.
  assert (i ≤ (Flashbax.max_time s - L) / p) as Hi' by lia.
  pose proof (Nat.Div0.mul_div_le (Flashbax.max_time s - L) p).
  assert (i * p ≤ p * ((Flashbax.max_time s - L) / p)) by nia.
  lia.
Qed.

Lemma elem_of_eligible_offsets (s : t) L p o :
  o ∈ Flashbax.eligible_offsets s L p ↔ ∃ i, o = i * p ∧ i < Flashbax.num_valid_items s L p.
Proof.
  unfold Flashbax.eligible_offsets. rewrite list_elem_of_fmap.
  split; intros (i & -> & Hi); exists i; (split; [done|]);
    apply elem_of_seq in Hi || apply elem_of_seq; lia.
Qed.

(** With period 1 every offset that leaves room for a window is
    eligible. *)
Lemma eligible_period_1 (s : t) L o :
  o + L ≤ Flashbax.max_time s → o ∈ Flashbax.eligible_offsets s L 1.
Proof.
  intros Ho. apply elem_of_eligible_offsets. exists o. split; [lia|].
  unfold Flashbax.num_valid_items.
  destruct (L <=? Flashbax.max_time s) eqn:HL; [|apply Nat.leb_gt in HL; lia].
  rewrite Nat.div_1_r. lia.
Qed.

Lemma eligible_strided (s : t) L p o :
  o ∈ Flashbax.eligible_offsets s L p → (p | o) ∧ o + L ≤ Flashbax.max_time s.
Proof.
  intros (i & -> & Hi)%elem_of_eligible_offsets. split.
  - by exists i.
  - by apply item_offset_bound.
Qed.
End Window.

Section SamplerProps.
Context `{Random}.
Import TrajectoryBufferState.

Lemma sample_starts_length (s : t) k B L p :
  length (Flashbax.sample_starts s k B L p) = B.
Proof. unfold Flashbax.sample_starts. by rewrite length_fmap, randint_length. Qed.

(** Every sampled start is an eligible offset counted from the head of
    the data, whenever there is an eligible offset at all. *)
Lemma sample_starts_eligible (s : t) k B L p :
  0 < Flashbax.num_valid_items s L p →
  Forall (λ start, ∃ o, o ∈ Flashbax.eligible_offsets s L p
                        ∧ start = (Flashbax.head s + o) mod length (experience s))
         (Flashbax.sample_starts s k B L p).
Proof.
  intros Hpos. unfold Flashbax.sample_starts. apply Forall_fmap.
  eapply Forall_impl; [by apply randint_range|].
  intros i Hi. simpl. exists (i * p). split; [|done].
  apply elem_of_eligible_offsets. by exists i.
Qed.

(** With nothing eligible the draw falls back to item 0. *)
Lemma sample_starts_underfilled (s : t) k B L p :
  Flashbax.num_valid_items s L p = 0 →
  Flashbax.sample_starts s k B L p
  = replicate B (Flashbax.head s mod length (experience s)).
Proof.
  intros Hz. unfold Flashbax.sample_starts. rewrite Hz, randint_empty.
  rewrite fmap_replicate. unfold Flashbax.start_index. simpl.
  by rewrite Nat.add_0_r.
Qed.

(** Starts drawn on a store that has not wrapped and holds a whole
    window: each is an offset into the added timesteps that leaves room
    for the window. *)
Lemma sample_starts_unwrapped cap sh ts (s : t) k B L p :
  0 < cap → ring_inv cap sh ts s → length ts ≤ cap → L ≤ length ts →
  length ts < cap ∨ 0 < L →
  Forall (λ o, o + L ≤ length ts ∧ (p | o)) (Flashbax.sample_starts s k B L p).
Proof.
  intros Hcap Hring Hle HL HLpos.
  pose proof (ring_max_time _ _ _ _ Hcap Hring Hle) as Hmax.
  pose proof (ring_head _ _ _ _ Hcap Hring Hle) as Hhead.
  unfold Flashbax.sample_starts. apply Forall_fmap.
  eapply Forall_impl.
  - apply randint_range. unfold Flashbax.num_valid_items.
    rewrite Hmax. destruct (L <=? length ts) eqn:E; [lia|].
    apply Nat.leb_gt in E. lia.
  - intros i Hi. simpl. apply item_offset_bound in Hi. rewrite Hmax in Hi.
    unfold Flashbax.start_index. rewrite Hhead. simpl.
    rewrite (ring_length _ _ _ _ Hring).
    rewrite Nat.mod_small by lia. split; [done | by exists i].
Qed.
End SamplerProps.

(** * Properties of the facade's methods *)

Section MethodProps.
Context `{Random}.

(** Only [ValueError] comes out of the buffer factory. *)
Lemma make_trajectory_buffer_error a b L p m cap e :
  Flashbax.make_trajectory_buffer a b L p m cap = Err e → is_ValueError e = true.
Proof.
  unfold Flashbax.make_trajectory_buffer, Flashbax.validate_trajectory_buffer_args.
  repeat case_match; simpl; by intros [= <-].
Qed.

(** [populate_from_vault], outcome by outcome. *)
Lemma populate_unfold d env_name scenario_name dataset_name rel_dir self :
  populate_from_vault d env_name scenario_name dataset_name rel_dir self
  = match Vault.read d (env_name +:+ "/" +:+ scenario_name +:+ ".vlt")
            dataset_name rel_dir with
    | Err e => (self, if is_ValueError e then Ok false else Err e)
    | Ok bs =>
        let i := TrajectoryBufferState.current_index bs in
        match Flashbax.make_trajectory_buffer 1 (_batch_size self)
                (_sequence_length self) 1 1 i with
        | Err e => (with_max_size (with_state self (Some bs)) i, Ok false)
        | Ok rb =>
            (mkFlashbaxReplayBuffer (_sequence_length self) i (_batch_size self) rb
               (jit (TrajectoryBuffer.sample rb)) (jit (TrajectoryBuffer.add rb))
               (Some bs) (_rng_key self),
             Ok true)
        end
    end.
Proof.
  destruct self as [L cap B rb sf af st k].
  unfold populate_from_vault, try_except_ValueError, mbind, M_bind, lift, get_self,
    on_state, set_buffer_state, set_max_size, with_max_size, with_state; simpl.
  destruct (Vault.read _ _ _ _) as [bs|e]; simpl.
  - destruct (Flashbax.make_trajectory_buffer _ _ _ _ _ _) as [rb'|e] eqn:Hmk; simpl.
    + reflexivity.
    + by rewrite (make_trajectory_buffer_error _ _ _ _ _ _ _ Hmk).
  - by destruct (is_ValueError e).
Qed.

(** What a successful load leaves behind. *)
Lemma populate_Ok_inv d env_name scenario_name dataset_name rel_dir
    (self self' : FlashbaxReplayBuffer) :
  populate_from_vault d env_name scenario_name dataset_name rel_dir self = (self', Ok true) →
  ∃ bs rb,
    Vault.read d (env_name +:+ "/" +:+ scenario_name +:+ ".vlt") dataset_name rel_dir = Ok bs
    ∧ Flashbax.make_trajectory_buffer 1 (_batch_size self) (_sequence_length self) 1 1
        (TrajectoryBufferState.current_index bs) = Ok rb
    ∧ self' = mkFlashbaxReplayBuffer (_sequence_length self)
                (TrajectoryBufferState.current_index bs) (_batch_size self) rb
                (jit (TrajectoryBuffer.sample rb)) (jit (TrajectoryBuffer.add rb))
                (Some bs) (_rng_key self).
Proof.
  rewrite populate_unfold.
  destruct (Vault.read _ _ _ _) as [bs|e]; [|by destruct (is_ValueError e)].
  simpl.
  destruct (Flashbax.make_trajectory_buffer _ _ _ _ _ _) as [rb|e] eqn:Hmk; [|done].
  intros [= <-]. by exists bs, rb.
Qed.

(** No outcome of a load touches the window length, the batch size or
    the key. *)
Lemma populate_frame d env_name scenario_name dataset_name rel_dir
    (self : FlashbaxReplayBuffer) :
  _sequence_length (populate_from_vault d env_name scenario_name dataset_name rel_dir self).1
    = _sequence_length self
  ∧ _batch_size (populate_from_vault d env_name scenario_name dataset_name rel_dir self).1
    = _batch_size self
  ∧ _rng_key (populate_from_vault d env_name scenario_name dataset_name rel_dir self).1
    = _rng_key self.
Proof.
  rewrite populate_unfold. destruct self as [L cap B rb sf af st k].
  destruct (Vault.read _ _ _ _) as [bs|e]; simpl; [|done].
  by destruct (Flashbax.make_trajectory_buffer _ _ _ _ _ _).
Qed.

(** A successful rebuild yields flashbax's functions for the object's
    window length and batch size, with period 1. *)
Lemma make_trajectory_buffer_Ok a B L p m cap rb :
  Flashbax.make_trajectory_buffer a B L p m cap = Ok rb →
  TrajectoryBuffer.sample rb = (λ s k, Flashbax.sample s k B L p)
  ∧ TrajectoryBuffer.add rb = Flashbax.add
  ∧ TrajectoryBuffer.init rb = Flashbax.init (cap / a).
Proof.
  unfold Flashbax.make_trajectory_buffer.
  destruct (Flashbax.validate_trajectory_buffer_args _ _ _ _ _); simpl; [|done].
  by intros [= <-].
Qed.

Lemma add_frame o a r te tr i self :
  ∃ st, (add o a r te tr i self).1 = with_state self st.
Proof.
  pose proof (add_unfold self (mkTimestep o a r te tr i)) as Hadd. simpl in Hadd.
  rewrite Hadd. destruct (_buffer_add_fn _ _ _); eexists; reflexivity.
Qed.

(** [add] and [sample] leave everything but the store and the key. *)
Lemma call_frame c self :
  is_populate c = false →
  ∃ st k, (call c self).1 = with_key (with_state self st) k
          ∧ k = (if is_sample c then (split (_rng_key self)).1 else _rng_key self).
Proof.
  destruct c as [o a r te tr i| |]; [| |done]; intros _.
  - destruct (add_frame o a r te tr i self) as [st Hst].
    exists st, (_rng_key self). split; [|done].
    unfold call, mbind, M_bind, mret, M_ret.
    destruct (add o a r te tr i self) as [self1 [[]|e]]; simpl in *; subst self1;
      by destruct self.
  - exists (_buffer_state self), (split (_rng_key self)).1. split; [|done].
    unfold call, mbind, M_bind, mret, M_ret. rewrite sample_unfold.
    destruct (on_state _ _); by destruct self.
Qed.

Lemma call_rng_key c self :
  _rng_key (call c self).1
  = if is_sample c then (split (_rng_key self)).1 else _rng_key self.
Proof.
  destruct (is_populate c) eqn:Hc.
  - destruct c as [| |d e s n r]; try done.
    unfold call, mbind, M_bind, mret, M_ret. rewrite populate_unfold.
    destruct self as [L cap B rb sf af st k].
    destruct (Vault.read _ _ _ _) as [bs|e0]; simpl.
    + by destruct (Flashbax.make_trajectory_buffer _ _ _ _ _ _).
    + by destruct (is_ValueError e0).
  - destruct (call_frame c self Hc) as (st & k & -> & ->). by destruct self.
Qed.

Lemma call_built c self :
  (∃ p, built_by_flashbax self p) → ∃ p, built_by_flashbax (call c self).1 p.
Proof.
  intros [p [Hs Ha]].
  destruct (is_populate c) eqn:Hc.
  - destruct c as [| |d e s n r]; try done.
    unfold call, mbind, M_bind, mret, M_ret. rewrite populate_unfold.
    destruct (Vault.read _ _ _ _) as [bs|e0]; simpl.
    + destruct (Flashbax.make_trajectory_buffer _ _ _ _ _ _) as [rb|e1] eqn:Hmk; simpl.
      * exists 1. apply make_trajectory_buffer_Ok in Hmk as (Hs' & Ha' & _).
        split; simpl; [exact Hs' | exact Ha'].
      * exists p. by destruct self.
    + exists p. by destruct (is_ValueError e0).
  - destruct (call_frame c self Hc) as (st & k & -> & _).
    exists p. by destruct self.
Qed.

Lemma run_built calls self :
  (∃ p, built_by_flashbax self p) → ∃ p, built_by_flashbax (run calls self).1 p.
Proof.
  revert self. induction calls as [|c cs IH]; intros self Hb; [done|].
  rewrite run_cons. simpl. by apply IH, call_built.
Qed.

Lemma init_built L cap B p seed f0 :
  __init__ L cap B p seed = Ok f0 → built_by_flashbax f0 p.
Proof.
  intros Hinit. destruct (init_inv _ _ _ _ _ _ Hinit) as (_ & _ & -> & _). by split.
Qed.

Lemma run_length calls self : length (run calls self).2 = length calls.
Proof.
  revert self. induction calls as [|c cs IH]; intros self; [done|].
  rewrite run_cons. simpl. by rewrite IH.
Qed.

(** The keys handed to the sampler along a history are the sub-keys of
    the successive kept keys. *)
Lemma sample_keys_derive calls :
  ∀ self k n, _rng_key self = derive k (replicate n false) →
    sample_keys calls self
    = (λ i, derive k (replicate i false ++ [true]))
        <$> seq n (length (filter is_sample calls)).
Proof.
  induction calls as [|c cs IH]; intros self k n Hk; [done|].
  cbn [sample_keys]. pose proof (call_rng_key c self) as Hkey.
  destruct (is_sample c) eqn:Hc.
  - rewrite filter_cons_True by (by rewrite Hc). simpl.
    rewrite Hk, derive_hand. f_equal.
    apply IH. by rewrite Hkey, Hk, derive_keep.
  - rewrite filter_cons_False by (rewrite Hc; intros []). simpl.
    apply IH. by rewrite Hkey.
Qed.

Lemma same_specs_Forall ts :
  same_specs ts = true → ∃ sh, Forall (λ t, tree_spec (as_stored t) = sh) ts.
Proof.
  destruct ts as [|t0 ts]; [by exists ([], [])|]. simpl. intros Hall.
  exists (tree_spec (as_stored t0)). constructor; [done|].
  apply Forall_forall. intros t Ht. apply list_elem_of_In in Ht.
  apply (proj1 (forallb_forall _ _) Hall) in Ht.
  by apply bool_decide_eq_true in Ht.
Qed.

(** The state of a fresh facade after a history of adds and samples. *)
Lemma run_fresh L cap B p seed f0 calls :
  __init__ L cap B p seed = Ok f0 →
  no_populate calls = true →
  same_specs (added calls) = true →
  ∃ sh, tracks f0 sh (as_stored <$> added calls)
          (length (filter is_sample calls)) (run calls f0).1
        ∧ Forall2 (λ c r, is_sample c = false → r = Ok RetNone) calls (run calls f0).2.
Proof.
  intros Hinit Hnp Hsh. destruct (same_specs_Forall _ Hsh) as [sh Hall].
  exists sh. apply (run_tracks f0 L cap B p seed sh calls Hinit [] 0 f0); [|done|done].
  exists None. split; [|done].
  destruct (init_inv _ _ _ _ _ _ Hinit) as (_ & _ & Hf0 & _).
  rewrite Hf0 at 1. by rewrite Hf0.
Qed.
End MethodProps.

(** * The store behind a fresh facade *)

Section FreshFacade.
Context `{Random}.

Lemma tracks_stored f0 sh ts n self :
  0 < _max_size f0 → tracks f0 sh ts n self →
  stored (_buffer_state self) = drop (length ts - _max_size f0) ts.
Proof.
  intros Hcap (state & -> & Hst). cbn [_buffer_state].
  destruct ts as [|t0 ts']; [by subst|].
  destruct Hst as (s & -> & Hring).
  remember (t0 :: ts') as ts eqn:E. clear E.
  destruct Hring as [Hlen Hidx Hfull Hsh Hpre Hrot _]. cbn [stored].
  rewrite Hfull, Hidx. case_bool_decide as Hge.
  - by apply Hrot.
  - rewrite Nat.mod_small by lia.
    replace (length ts - _max_size f0) with 0 by lia.
    rewrite drop_0. apply Hpre. lia.
Qed.

Lemma tracks_state f0 sh ts n self :
  tracks f0 sh ts n self → ts ≠ [] →
  ∃ s, _buffer_state self = Some s ∧ ring_inv (_max_size f0) sh ts s.
Proof.
  intros (state & -> & Hst) Hne. destruct ts; [done|]. exact Hst.
Qed.

Lemma tracks_fields f0 sh ts n self :
  tracks f0 sh ts n self →
  _sequence_length self = _sequence_length f0 ∧ _batch_size self = _batch_size f0
  ∧ _buffer_sample_fn self = _buffer_sample_fn f0.
Proof. by intros (state & -> & _). Qed.

Lemma added_app calls1 calls2 : added (calls1 ++ calls2) = added calls1 ++ added calls2.
Proof. apply omap_app. Qed.

Lemma no_populate_take n calls : no_populate calls = true → no_populate (take n calls) = true.
Proof.
  unfold no_populate. rewrite !forallb_forall. intros Hall c Hc.
  apply Hall. apply list_elem_of_In. apply list_elem_of_In in Hc.
  by eapply subseteq_take.
Qed.

Lemma same_specs_prefix ts1 ts2 :
  same_specs (ts1 ++ ts2) = true → same_specs ts1 = true.
Proof.
  destruct ts1 as [|t0 ts1]; [done|]. simpl.
  rewrite forallb_app. by intros [? _]%andb_true_iff.
Qed.

Lemma fresh_stored L cap B p seed f0 calls :
  __init__ L cap B p seed = Ok f0 →
  no_populate calls = true →
  same_specs (added calls) = true →
  stored (_buffer_state (run calls f0).1)
  = drop (length (added calls) - cap) (as_stored <$> added calls).
Proof.
  intros Hinit Hnp Hsh.
  destruct (run_fresh _ _ _ _ _ _ _ Hinit Hnp Hsh) as (sh & Htr & _).
  destruct (init_inv _ _ _ _ _ _ Hinit) as (_ & Hcap & Hf0 & _).
  assert (_max_size f0 = cap) as Hms by (by rewrite Hf0).
  rewrite <- Hms, <- (length_fmap as_stored (added calls)).
  eapply tracks_stored; [lia | done].
Qed.
End FreshFacade.

(** * Loading a snapshot *)

Section Populate.
Context `{Random}.

(** C1 (as amended): a [populate_from_vault] call whose vault read raises
    [ValueError] (the dataset is missing or cannot be read) returns
    [False] and leaves the facade exactly as it was: buffer state,
    [max_size], buffer functions and key. *)
Theorem populate_read_failure_unchanged d env_name scenario_name dataset_name rel_dir
    (self : FlashbaxReplayBuffer) (e : exn) :
  Vault.read d (env_name +:+ "/" +:+ scenario_name +:+ ".vlt") dataset_name rel_dir = Err e →
  is_ValueError e = true →
  populate_from_vault d env_name scenario_name dataset_name rel_dir self = (self, Ok false).
Proof.
  intros Hread He. rewrite populate_unfold, Hread. by rewrite He.
Qed.

(** C2: after a successful [populate_from_vault], [max_size] is the
    loaded state's [current_index], the loaded state is the buffer state,
    and the replay buffer with its sample and add functions is the one
    [make_trajectory_buffer] builds for that [max_size] (period 1), so its
    [init] allocates that many slots. *)
Theorem populate_success_rebuilds d env_name scenario_name dataset_name rel_dir
    (self self' : FlashbaxReplayBuffer) :
  populate_from_vault d env_name scenario_name dataset_name rel_dir self = (self', Ok true) →
  ∃ bs rb,
    Vault.read d (env_name +:+ "/" +:+ scenario_name +:+ ".vlt") dataset_name rel_dir = Ok bs
    ∧ _buffer_state self' = Some bs
    ∧ _max_size self' = TrajectoryBufferState.current_index bs
    ∧ Flashbax.make_trajectory_buffer 1 (_batch_size self) (_sequence_length self) 1 1
        (_max_size self') = Ok rb
    ∧ _replay_buffer self' = rb
    ∧ _buffer_sample_fn self' = jit (TrajectoryBuffer.sample rb)
    ∧ _buffer_add_fn self' = jit (TrajectoryBuffer.add rb)
    ∧ TrajectoryBuffer.init rb = Flashbax.init (_max_size self').
Proof.
  intros (bs & rb & Hread & Hmk & ->)%populate_Ok_inv.
  exists bs, rb. simpl. repeat (split; [done|]).
  apply make_trajectory_buffer_Ok in Hmk as (_ & _ & ->). by rewrite Nat.div_1_r.
Qed.

(** C9 (as amended): no [populate_from_vault] call, whatever its
    outcome, changes [sequence_length], [batch_size] or the key, and a
    call that does not return [True] leaves the replay buffer and its
    functions as they were.  A call that returns [True] overwrites
    [max_size] with the loaded [current_index] and also replaces the
    construction-time sample period: the rebuilt sample function is the
    sampler at period 1. *)
Theorem populate_keeps_configuration d env_name scenario_name dataset_name rel_dir
    (self : FlashbaxReplayBuffer) :
  let r := populate_from_vault d env_name scenario_name dataset_name rel_dir self in
  _sequence_length r.1 = _sequence_length self
  ∧ _batch_size r.1 = _batch_size self
  ∧ _rng_key r.1 = _rng_key self
  ∧ (r.2 ≠ Ok true →
     _replay_buffer r.1 = _replay_buffer self
     ∧ _buffer_sample_fn r.1 = _buffer_sample_fn self
     ∧ _buffer_add_fn r.1 = _buffer_add_fn self)
  ∧ (r.2 = Ok true →
     (∃ bs, _buffer_state r.1 = Some bs
            ∧ _max_size r.1 = TrajectoryBufferState.current_index bs)
     ∧ _buffer_sample_fn r.1
       = (λ s k, Flashbax.sample s k (_batch_size self) (_sequence_length self) 1)).
Proof.
  intros r. destruct (populate_frame d env_name scenario_name dataset_name rel_dir self)
    as (HL & HB & Hk).
  split; [done|]. split; [done|]. split; [done|]. subst r. split.
  - rewrite populate_unfold. destruct self as [L cap B rb sf af st k].
    destruct (Vault.read _ _ _ _) as [bs|e]; simpl.
    + by destruct (Flashbax.make_trajectory_buffer _ _ _ _ _ _).
    + by destruct (is_ValueError e).
  - intros Hok.
    destruct (populate_from_vault d env_name scenario_name dataset_name rel_dir self)
      as [self' res] eqn:Hpop.
    simpl in Hok. subst res.
    apply populate_Ok_inv in Hpop as (bs & rb & _ & Hmk & ->).
    apply make_trajectory_buffer_Ok in Hmk as (Hs & _ & _). simpl. split; [|done].
    by exists bs.
Qed.
End Populate.

(** C1, the claim as stated fails: on a facade holding five timesteps with
    windows of length 3, loading the two-step dataset [short] returns
    [False] (the rebuild for capacity 2 is rejected), yet the buffer state
    and [max_size] have already been overwritten. *)
Lemma populate_failure_mutates :
  ∃ self,
    facade_after 3 20 1 1 42 (add_call <$> reward_steps 5) = Some self
    ∧ let r := populate_from_vault disk0 "env" "scenario" "short" "datasets" self in
      r.2 = Ok false
      ∧ r.1 ≠ self
      ∧ _max_size self = 20 ∧ _max_size r.1 = 2
      ∧ rewards_of (stored (_buffer_state self)) = [[0]; [1]; [2]; [3]; [4]]%Z
      ∧ rewards_of (stored (_buffer_state r.1)) = [[0]; [1]]%Z.
Proof.
  eexists. split; [reflexivity|]. cbv zeta.
  split; [vm_compute; reflexivity|]. split; [|vm_compute; by repeat split].
  intros Heq. apply (f_equal _max_size) in Heq. vm_compute in Heq. discriminate.
Qed.

Lemma populate_read_failure_unchanged_witness :
  ∃ self,
    facade_after 3 20 1 1 42 (add_call <$> reward_steps 5) = Some self
    ∧ populate_from_vault disk0 "env" "scenario" "absent" "datasets" self = (self, Ok false).
Proof.
  eexists. split; [reflexivity|].
  apply (populate_read_failure_unchanged disk0 "env" "scenario" "absent" "datasets" _
           (ValueError "vault not found")); vm_compute; reflexivity.
Defined.

Lemma populate_success_rebuilds_witness :
  ∃ self,
    facade_after 3 20 1 1 42 (add_call <$> reward_steps 5) = Some self
    ∧ let r := populate_from_vault disk0 "env" "scenario" "good" "datasets" self in
      r.2 = Ok true
      ∧ _max_size r.1 = 6
      ∧ ∃ bs rb,
          Vault.read disk0 ("env" +:+ "/" +:+ "scenario" +:+ ".vlt") "good" "datasets" = Ok bs
          ∧ _buffer_state r.1 = Some bs
          ∧ _max_size r.1 = TrajectoryBufferState.current_index bs
          ∧ Flashbax.make_trajectory_buffer 1 (_batch_size self) (_sequence_length self) 1 1
              (_max_size r.1) = Ok rb
          ∧ _replay_buffer r.1 = rb
          ∧ _buffer_sample_fn r.1 = jit (TrajectoryBuffer.sample rb)
          ∧ _buffer_add_fn r.1 = jit (TrajectoryBuffer.add rb)
          ∧ TrajectoryBuffer.init rb = Flashbax.init (_max_size r.1).
Proof.
  eexists. split; [reflexivity|]. cbv zeta.
  split; [vm_compute; reflexivity|]. split; [vm_compute; reflexivity|].
  apply (populate_success_rebuilds disk0 "env" "scenario" "good" "datasets").
  vm_compute; reflexivity.
Defined.

(** C9, the claim as stated fails: [max_size] is not the only
    construction parameter a load overwrites.  A facade built with sample
    period 4 samples, after loading the dataset [good], with period 1: on
    the loaded state the two sample functions return different windows. *)
Lemma populate_overwrites_period :
  ∃ f0, __init__ 3 20 1 4 42 = Ok f0
    ∧ let r := populate_from_vault disk0 "env" "scenario" "good" "datasets" f0 in
      r.2 = Ok true
      ∧ _buffer_sample_fn f0 = (λ s k, Flashbax.sample s k 1 3 4)
      ∧ _buffer_sample_fn r.1 = (λ s k, Flashbax.sample s k 1 3 1)
      ∧ _buffer_sample_fn r.1 (TrajectoryBufferState.mk (reward_steps 6) 6 true) (PRNGKey 42)
        ≠ _buffer_sample_fn f0 (TrajectoryBufferState.mk (reward_steps 6) 6 true) (PRNGKey 42).
Proof.
  eexists. split; [reflexivity|]. cbv zeta.
  split; [vm_compute; reflexivity|]. split; [reflexivity|].
  match goal with
  | |- context [populate_from_vault ?d ?e ?sc ?n ?rd ?f] =>
      destruct (populate_from_vault d e sc n rd f) as [self' res] eqn:Hpop;
      assert (res = Ok true) as -> by (apply (f_equal snd) in Hpop; vm_compute in Hpop; congruence)
  end.
  apply populate_Ok_inv in Hpop as (bs & rb & _ & Hmk & ->).
  apply make_trajectory_buffer_Ok in Hmk as (Hs & _ & _). simpl. unfold jit.
  split; [exact Hs|]. rewrite Hs. vm_compute. intros [=].
Qed.

(** * Sampling: keys, failure and determinism *)

Lemma path_derive (k : path_key) (p : list bool) : derive k p = (k.1, k.2 ++ p).
Proof.
  revert k. induction p as [|b p IH]; intros [seed path]; simpl.
  - by rewrite app_nil_r.
  - destruct b; rewrite IH; simpl; by rewrite <- app_assoc.
Qed.

Lemma path_keys_collision_free : @CollisionFree PathKeys.
Proof.
  intros k p q. rewrite !path_derive. intros [= Heq]. by apply app_inv_head in Heq.
Qed.

Section Sampling.
Context `{Random}.

(** C7 (as amended): [sample] has no guard of its own.  On a fresh
    facade to which nothing was added it fails, after advancing the key,
    with the error of reading the missing store, not with an
    insufficient-data error.  On a fresh facade (sample period at least 1)
    to which K timesteps were added, with 1 <= K < [sequence_length], it
    does not fail: it returns [batch_size] windows, each made of the K
    stored timesteps followed by [sequence_length - K] zero-filled slots
    that were never written. *)
Theorem sample_unguarded L cap B p seed (f0 : FlashbaxReplayBuffer) calls :
  __init__ L cap B p seed = Ok f0 →
  0 < p →
  no_populate calls = true →
  same_specs (added calls) = true →
  let K := length (added calls) in
  let self := (run calls f0).1 in
  (K = 0 →
   _rng_key (sample self).1 = (split (_rng_key self)).1
   ∧ ∃ msg, (sample self).2 = Err (AttributeError msg))
  ∧ (0 < K → K < L →
     ∃ zeros,
       length zeros = L - K
       ∧ Forall (λ e, map_structure empty_like e = e) zeros
       ∧ (sample self).2 = Ok (replicate B ((as_stored <$> added calls) ++ zeros))).
Proof.
  intros Hinit Hp Hnp Hsh K self.
  destruct (run_fresh _ _ _ _ _ _ _ Hinit Hnp Hsh) as (sh & Htr & _).
  destruct (init_inv _ _ _ _ _ _ Hinit) as (HL & Hcap & Hf0 & _).
  assert (_max_size f0 = cap) as Hms by (by rewrite Hf0).
  assert (_buffer_sample_fn f0 = (λ s k, Flashbax.sample s k B L p)) as Hsf
    by (by rewrite Hf0).
  fold self in Htr. split.
  - intros HK. destruct (added calls) as [|t ts] eqn:E; [|done].
    destruct Htr as (state & Hself & ->). rewrite sample_unfold, Hself. simpl.
    split; [done|]. by eexists.
  - intros HK0 HKL.
    destruct (tracks_state _ _ _ _ _ Htr) as (s & Hs & Hring).
    { intros E%(f_equal length). rewrite length_fmap in E. simpl in E. lia. }
    rewrite Hms in Hring.
    destruct (tracks_fields _ _ _ _ _ Htr) as (_ & _ & Hfn).
    assert (length (as_stored <$> added calls) = K) as HlenK by apply length_fmap.
    pose proof (ring_max_time _ _ _ _ Hcap Hring) as Hmax.
    pose proof (ring_head _ _ _ _ Hcap Hring) as Hhead.
    rewrite HlenK in Hmax, Hhead.
    destruct Hring as [Hlen _ _ _ Hpre _ Hunw]. rewrite HlenK in Hpre, Hunw.
    exists (take (L - K) (drop K (TrajectoryBufferState.experience s))).
    split; [rewrite length_take, length_drop; lia|].
    split; [by apply Forall_take|].
    rewrite sample_unfold, Hs. simpl. rewrite Hfn, Hsf. unfold Flashbax.sample. simpl.
    rewrite sample_starts_underfilled.
    + rewrite Hhead by lia. rewrite Nat.Div0.mod_0_l, fmap_replicate. do 2 f_equal.
      rewrite (window_in_prefix s (TrajectoryBufferState.experience s) L 0);
        [| lia | lia | by apply take_ge | lia].
      rewrite drop_0. rewrite <- (Hpre ltac:(lia)).
      rewrite take_take_drop. f_equal. lia.
    + unfold Flashbax.num_valid_items. rewrite Hmax by lia.
      by rewrite (proj2 (Nat.leb_gt L K)) by lia.
Qed.

(** C10: every [sample] call replaces the facade's key by the first
    half of the split of the current key and hands the second half to the
    sampler, whether or not the sampler then fails (as it does while the
    store is missing); with a collision-free generator, the keys handed
    out along any history are pairwise different. *)
Theorem sample_advances_key (Hfree : CollisionFree) (calls : list Call)
    (self : FlashbaxReplayBuffer) :
  _rng_key (sample self).1 = (split (_rng_key self)).1
  ∧ (sample self).2
    = on_state (λ s, Ok (TrajectoryBufferSample.experience
                           (_buffer_sample_fn self s (split (_rng_key self)).2)))
               (_buffer_state self)
  ∧ (_buffer_state self = None →
     is_Ok (sample self).2 = false ∧ _rng_key (sample self).1 = (split (_rng_key self)).1)
  ∧ NoDup (sample_keys calls self).
Proof.
  rewrite sample_unfold. simpl.
  assert (_rng_key (with_key self (split (_rng_key self)).1) = (split (_rng_key self)).1)
    as Hk by (by destruct self).
  split; [done|]. split; [done|]. split; [by intros ->|].
  rewrite (sample_keys_derive calls self (_rng_key self) 0) by done.
  apply NoDup_fmap_2_strong; [|apply NoDup_seq].
  intros i j _ _ Heq. apply derive_inj in Heq.
  apply (f_equal length) in Heq. rewrite !length_app, !length_replicate in Heq.
  simpl in Heq. lia.
Qed.

(** C4: two facades built with the same arguments and seed return the
    same results, batch for batch, along the same history; what either
    returns on a common history does not depend on the calls made
    later. *)
Theorem same_seed_same_batches L cap B p seed (f1 f2 : FlashbaxReplayBuffer)
    (calls rest1 rest2 : list Call) :
  __init__ L cap B p seed = Ok f1 →
  __init__ L cap B p seed = Ok f2 →
  (run calls f1).2 = (run calls f2).2
  ∧ take (length calls) (run (calls ++ rest1) f1).2
    = take (length calls) (run (calls ++ rest2) f2).2.
Proof.
  intros H1 H2. rewrite H1 in H2. injection H2 as <-. split; [done|].
  rewrite !run_app. simpl.
  by rewrite !take_app_length' by (by rewrite run_length).
Qed.
End Sampling.

(** C7, the claim as stated fails: with windows of length 3 and a single
    timestep added, [sample] raises nothing; it returns a window made of
    that timestep followed by two slots that were never written. *)
Lemma sample_underfilled_returns :
  ∃ self,
    facade_after 3 20 1 1 42 [add_call (reward_step 7)] = Some self
    ∧ length (stored (_buffer_state self)) = 1
    ∧ _sequence_length self = 3
    ∧ (sample self).2
      = Ok [[reward_step 7; map_structure empty_like (reward_step 7);
             map_structure empty_like (reward_step 7)]].
Proof.
  eexists. split; [reflexivity|]. vm_compute. by repeat split.
Qed.

Lemma sample_unguarded_witness :
  ∃ f0, __init__ 3 20 2 1 42 = Ok f0
    ∧ let calls := [add_call (reward_step 7)] in
      let K := length (added calls) in
      let self := (run calls f0).1 in
      (K = 0 →
       _rng_key (sample self).1 = (split (_rng_key self)).1
       ∧ ∃ msg, (sample self).2 = Err (AttributeError msg))
      ∧ (0 < K → K < 3 →
         ∃ zeros,
           length zeros = 3 - K
           ∧ Forall (λ e, map_structure empty_like e = e) zeros
           ∧ (sample self).2 = Ok (replicate 2 ((as_stored <$> added calls) ++ zeros))).
Proof.
  eexists. split; [reflexivity|]. cbv zeta.
  refine (sample_unguarded 3 20 2 1 42 _ [add_call (reward_step 7)] _ _ _ _).
  - reflexivity.
  - lia.
  - vm_compute; reflexivity.
  - vm_compute; reflexivity.
Defined.

Lemma sample_advances_key_witness :
  ∃ f0, __init__ 3 20 1 1 42 = Ok f0
    ∧ _rng_key (sample f0).1 = (split (_rng_key f0)).1
    ∧ is_Ok (sample f0).2 = false
    ∧ NoDup (sample_keys [CallSample; add_call (reward_step 7); CallSample; CallSample] f0).
Proof.
  eexists. split; [reflexivity|].
  match goal with
  | |- context [sample ?f0] =>
      pose proof (sample_advances_key path_keys_collision_free
                    [CallSample; add_call (reward_step 7); CallSample; CallSample] f0)
        as (Hk & _ & Hnone & Hnodup)
  end.
  split; [exact Hk|]. split; [apply Hnone; reflexivity | exact Hnodup].
Defined.

Lemma same_seed_same_batches_witness :
  ∃ f1 f2, __init__ 3 20 1 1 42 = Ok f1 ∧ __init__ 3 20 1 1 42 = Ok f2
    ∧ (run ((add_call <$> reward_steps 4) ++ [CallSample; CallSample]) f1).2
      = (run ((add_call <$> reward_steps 4) ++ [CallSample; CallSample]) f2).2.
Proof.
  eexists. eexists. split; [reflexivity|]. split; [reflexivity|].
  match goal with
  | |- snd (run ?c ?f1) = snd (run ?c ?f2) =>
      refine (proj1 (same_seed_same_batches 3 20 1 1 42 f1 f2 c [] [] _ _))
  end; reflexivity.
Defined.

(** * Adding and sampling on a fresh facade *)

Section AddSample.
Context `{Random}.

(** Reading a window slot that lies in the part of the time axis that
    was written without wrapping. *)
Lemma window_reads_added cap sh ts (s : TrajectoryBufferState.t) L o j t :
  0 < cap → ring_inv cap sh ts s → length ts ≤ cap →
  j < L → ts !! (o + j) = Some t →
  Flashbax.window s L o !! j = Some t.
Proof.
  intros Hcap Hring Hle Hj Ht.
  pose proof (lookup_lt_Some _ _ _ Ht) as Hlt.
  destruct Hring as [Hlen _ _ _ Hpre _ _].
  rewrite window_lookup by lia.
  rewrite Hlen, Nat.mod_small by lia.
  rewrite <- (Hpre Hle) in Ht. by rewrite lookup_take_lt in Ht by lia.
Qed.

(** C3 (as amended): on a fresh facade (sample period at least 1) to
    which K timesteps of one element type and shape were added, with
    [sequence_length <= K < max_size] and K at least 1, every [sample]
    call returns [batch_size] windows, each starting at an offset [o] with
    [o + sequence_length <= K] and equal to the timesteps added at
    [o, ..., o + sequence_length - 1] as the store holds them (made jax
    arrays); no window reaches a slot that was never written. *)
Theorem sample_within_written L cap B p seed (f0 : FlashbaxReplayBuffer) calls :
  __init__ L cap B p seed = Ok f0 →
  0 < p →
  no_populate calls = true →
  same_specs (added calls) = true →
  L ≤ length (added calls) →
  length (added calls) < cap →
  0 < length (added calls) →
  let self := (run calls f0).1 in
  ∃ s starts,
    _buffer_state self = Some s
    ∧ starts = Flashbax.sample_starts s (split (_rng_key self)).2 B L p
    ∧ (sample self).2 = Ok (Flashbax.window s L <$> starts)
    ∧ length starts = B
    ∧ Forall (λ o, o + L ≤ length (added calls)
                   ∧ Flashbax.window s L o
                     = take L (drop o (as_stored <$> added calls))) starts.
Proof.
  intros Hinit Hp Hnp Hsh HL Hcap Hpos self.
  destruct (run_fresh _ _ _ _ _ _ _ Hinit Hnp Hsh) as (sh & Htr & _).
  destruct (init_inv _ _ _ _ _ _ Hinit) as (_ & Hcap0 & Hf0 & _).
  assert (_max_size f0 = cap) as Hms by (by rewrite Hf0).
  assert (_buffer_sample_fn f0 = (λ s k, Flashbax.sample s k B L p)) as Hsf
    by (by rewrite Hf0).
  assert (length (as_stored <$> added calls) = length (added calls)) as HlenK
    by apply length_fmap.
  destruct (tracks_state _ _ _ _ _ Htr) as (s & Hs & Hring).
  { intros E%(f_equal length). rewrite HlenK in E. simpl in E. lia. }
  rewrite Hms in Hring.
  destruct (tracks_fields _ _ _ _ _ Htr) as (_ & _ & Hfn).
  fold self in Hs, Hfn.
  exists s, (Flashbax.sample_starts s (split (_rng_key self)).2 B L p).
  split; [done|]. split; [done|]. split.
  { rewrite sample_unfold, Hs. simpl. by rewrite Hfn, Hsf. }
  split; [apply sample_starts_length|].
  eapply Forall_impl.
  - eapply (sample_starts_unwrapped cap sh (as_stored <$> added calls)); eauto; lia.
  - intros o [Ho _]. simpl. rewrite HlenK in Ho. split; [done|].
    destruct Hring as [Hlen _ _ _ Hpre _ _].
    apply window_in_prefix; [lia | lia | apply Hpre; lia | lia].
Qed.

(** C5: after a history that adds more timesteps, of one element type
    and shape, than [max_size], every add has returned normally, the
    store holds exactly the last [max_size] of them, oldest first, as jax
    arrays, in [max_size] slots; it never held more than [max_size] at any
    point; when the stored timesteps are pairwise different none of the
    older ones is left in it; and when the timesteps were passed as jax
    keeps them, it holds those very timesteps. *)
Theorem ring_keeps_most_recent L cap B p seed (f0 : FlashbaxReplayBuffer) calls :
  __init__ L cap B p seed = Ok f0 →
  no_populate calls = true →
  same_specs (added calls) = true →
  cap < length (added calls) →
  let ts := added calls in
  let self := (run calls f0).1 in
  Forall2 (λ c r, is_sample c = false → r = Ok RetNone) calls (run calls f0).2
  ∧ stored (_buffer_state self) = as_stored <$> drop (length ts - cap) ts
  ∧ length (stored (_buffer_state self)) = cap
  ∧ (∃ s, _buffer_state self = Some s
          ∧ length (TrajectoryBufferState.experience s) = cap)
  ∧ (∀ n, length (stored (_buffer_state (run (take n calls) f0).1)) ≤ cap)
  ∧ (NoDup (as_stored <$> ts) →
     ∀ t, t ∈ take (length ts - cap) ts → as_stored t ∉ stored (_buffer_state self))
  ∧ (Forall (λ t, as_stored t = t) ts →
     stored (_buffer_state self) = drop (length ts - cap) ts).
Proof.
  intros Hinit Hnp Hsh Hlen ts self.
  destruct (run_fresh _ _ _ _ _ _ _ Hinit Hnp Hsh) as (sh & Htr & Hrs).
  destruct (init_inv _ _ _ _ _ _ Hinit) as (_ & Hcap0 & Hf0 & _).
  assert (_max_size f0 = cap) as Hms by (by rewrite Hf0).
  pose proof (fresh_stored _ _ _ _ _ _ _ Hinit Hnp Hsh) as Hst.
  subst ts. fold self in Hst. rewrite <- fmap_drop in Hst.
  split; [done|]. split; [done|].
  split; [rewrite Hst, length_fmap, length_drop; lia|].
  split.
  { destruct (tracks_state _ _ _ _ _ Htr) as (s & Hs & Hring).
    - intros E%(f_equal length). rewrite length_fmap in E. simpl in E. lia.
    - exists s. split; [done|]. rewrite <- Hms. by destruct Hring. }
  split; [|split].
  - intros n.
    rewrite (fresh_stored L cap B p seed f0 (take n calls) Hinit).
    + rewrite length_drop, length_fmap. lia.
    + by apply no_populate_take.
    + apply (same_specs_prefix _ (added (drop n calls))).
      by rewrite <- added_app, take_drop.
  - intros Hnd t Hold Hnew. rewrite Hst in Hnew.
    rewrite <- (take_drop (length (added calls) - cap) (added calls)) in Hnd.
    rewrite fmap_app in Hnd.
    apply NoDup_app in Hnd as (_ & Hdisj & _).
    apply (Hdisj (as_stored t)); [|done]. by apply list_elem_of_fmap_2.
  - intros Hcanon. rewrite Hst.
    apply list_eq. intros i. rewrite list_lookup_fmap.
    destruct (drop _ _ !! i) as [t|] eqn:Ht; [|done]. simpl. f_equal.
    apply list_elem_of_lookup_2, (subseteq_drop _ _ t) in Ht.
    by apply (proj1 (Forall_forall _ _) Hcanon).
Qed.

(** C6 (as amended): after a history that adds at most [max_size]
    timesteps of one element type and shape, every add has returned
    normally and the store holds those timesteps in call order, each as
    the jax array [jnp.array] makes of it; every window [sample] then
    returns shows, at each position whose offset was added to, the jax
    array form of the timestep added at that offset.  The values are the
    added ones themselves when the timesteps were passed as jax keeps
    them. *)
Theorem adds_kept_in_order L cap B p seed (f0 : FlashbaxReplayBuffer) calls :
  __init__ L cap B p seed = Ok f0 →
  no_populate calls = true →
  same_specs (added calls) = true →
  length (added calls) ≤ cap →
  let ts := added calls in
  let self := (run calls f0).1 in
  Forall2 (λ c r, is_sample c = false → r = Ok RetNone) calls (run calls f0).2
  ∧ stored (_buffer_state self) = as_stored <$> ts
  ∧ (Forall (λ t, as_stored t = t) ts → stored (_buffer_state self) = ts)
  ∧ ∀ batch, (sample self).2 = Ok batch →
      ∃ s starts,
        _buffer_state self = Some s
        ∧ starts = Flashbax.sample_starts s (split (_rng_key self)).2 B L p
        ∧ batch = Flashbax.window s L <$> starts
        ∧ Forall (λ o, ∀ j t, j < L → ts !! (o + j) = Some t →
                              Flashbax.window s L o !! j = Some (as_stored t)) starts.
Proof.
  intros Hinit Hnp Hsh Hlen ts self.
  destruct (run_fresh _ _ _ _ _ _ _ Hinit Hnp Hsh) as (sh & Htr & Hrs).
  destruct (init_inv _ _ _ _ _ _ Hinit) as (_ & Hcap0 & Hf0 & _).
  assert (_max_size f0 = cap) as Hms by (by rewrite Hf0).
  assert (_buffer_sample_fn f0 = (λ s k, Flashbax.sample s k B L p)) as Hsf
    by (by rewrite Hf0).
  assert (stored (_buffer_state self) = as_stored <$> ts) as Hst.
  { unfold self. rewrite (fresh_stored _ _ _ _ _ _ _ Hinit Hnp Hsh).
    subst ts. replace (length (added calls) - cap) with 0 by lia. apply drop_0. }
  split; [done|]. split; [done|]. split.
  { intros Hcanon. rewrite Hst. apply list_eq. intros i. rewrite list_lookup_fmap.
    destruct (ts !! i) as [t|] eqn:Ht; [|done]. simpl. f_equal.
    apply list_elem_of_lookup_2 in Ht.
    by apply (proj1 (Forall_forall _ _) Hcanon). }
  intros batch. rewrite sample_unfold. simpl.
  destruct (tracks_fields _ _ _ _ _ Htr) as (_ & _ & Hfn). fold self in Hfn.
  destruct (_buffer_state self) as [s|] eqn:Hs; [|done].
  simpl. rewrite Hfn, Hsf. intros [= <-].
  exists s, (Flashbax.sample_starts s (split (_rng_key self)).2 B L p).
  repeat (split; [done|]).
  destruct (tracks_state _ _ _ _ _ Htr) as (s' & Hs' & Hring).
  { intros E. destruct Htr as (state & Hself & Hstate). rewrite E in Hstate.
    fold self in Hself. rewrite Hself in Hs. simpl in Hs. congruence. }
  fold self in Hs'. rewrite Hs in Hs'. injection Hs' as <-. rewrite Hms in Hring.
  apply Forall_forall. intros o _ j t Hj Ht.
  apply (window_reads_added cap sh (as_stored <$> ts) s L o j (as_stored t));
    [done | done | by rewrite length_fmap | done |].
  by rewrite list_lookup_fmap, Ht.
Qed.

Lemma run_configuration calls (self : FlashbaxReplayBuffer) :
  _sequence_length (run calls self).1 = _sequence_length self
  ∧ _batch_size (run calls self).1 = _batch_size self.
Proof.
  revert self. induction calls as [|c cs IH]; intros self; [done|].
  rewrite run_cons. simpl. destruct (IH (call c self).1) as [-> ->].
  destruct (is_populate c) eqn:Hc.
  - destruct c as [| |d e s n r]; try done.
    unfold call, mbind, M_bind, mret, M_ret.
    pose proof (populate_frame d e s n r self) as (HL & HB & _).
    by destruct (populate_from_vault d e s n r self) as [self1 [b|err]].
  - destruct (call_frame c self Hc) as (st & k & -> & _). by destruct self.
Qed.

Lemma run_sample_fn calls (self : FlashbaxReplayBuffer) :
  no_populate calls = true →
  _buffer_sample_fn (run calls self).1 = _buffer_sample_fn self.
Proof.
  revert self. induction calls as [|c cs IH]; intros self Hnp; [done|].
  simpl in Hnp. apply andb_true_iff in Hnp as [Hc Hnp].
  rewrite run_cons. simpl. rewrite IH by done.
  destruct (call_frame c self) as (st & k & -> & _); [by destruct (is_populate c)|].
  by destruct self.
Qed.

(** C8: a facade built with [sample_period] samples, as long as only
    [add] and [sample] are called, with flashbax's sampler at that period,
    whose eligible start offsets are the multiples of the period that
    leave room for a window; after any later successful
    [populate_from_vault] the sample function is the sampler at period 1,
    for which every offset of the loaded state that leaves room for a
    window is eligible. *)
Theorem period_training_then_snapshot L cap B p seed (f0 : FlashbaxReplayBuffer)
    training later d env_name scenario_name dataset_name rel_dir
    (self' : FlashbaxReplayBuffer) :
  __init__ L cap B p seed = Ok f0 →
  no_populate training = true →
  let trained := (run training f0).1 in
  populate_from_vault d env_name scenario_name dataset_name rel_dir (run later trained).1
    = (self', Ok true) →
  (_buffer_sample_fn trained = (λ s k, Flashbax.sample s k B L p)
   ∧ (∀ s o, o ∈ Flashbax.eligible_offsets s L p →
             (p | o) ∧ o + L ≤ Flashbax.max_time s)
   ∧ (∀ s k, 0 < Flashbax.num_valid_items s L p →
             Forall (λ start, ∃ o, o ∈ Flashbax.eligible_offsets s L p
                                   ∧ start = (Flashbax.head s + o)
                                               mod length (TrajectoryBufferState.experience s))
                    (Flashbax.sample_starts s k B L p)))
  ∧ (_buffer_sample_fn self' = (λ s k, Flashbax.sample s k B L 1)
     ∧ ∃ s, _buffer_state self' = Some s
            ∧ ∀ o, o + L ≤ Flashbax.max_time s → o ∈ Flashbax.eligible_offsets s L 1).
Proof.
  intros Hinit Hnp trained Hpop.
  destruct (init_inv _ _ _ _ _ _ Hinit) as (_ & _ & Hf0 & _).
  assert (_buffer_sample_fn f0 = (λ s k, Flashbax.sample s k B L p)) as Hsf
    by (by rewrite Hf0).
  assert (_sequence_length f0 = L ∧ _batch_size f0 = B) as [HL HB]
    by (by rewrite Hf0).
  split.
  - split; [unfold trained; by rewrite run_sample_fn|]. split.
    + intros s o. apply eligible_strided.
    + intros s k. apply sample_starts_eligible.
  - destruct (populate_Ok_inv _ _ _ _ _ _ _ Hpop) as (bs & rb & _ & Hmk & ->).
    destruct (run_configuration later trained) as [HL2 HB2].
    destruct (run_configuration training f0) as [HL1 HB1]. fold trained in HL1, HB1.
    rewrite HL2, HL1, HL, HB2, HB1, HB in Hmk.
    apply make_trajectory_buffer_Ok in Hmk as (Hs & _ & _). simpl.
    split; [done|].
    exists bs. split; [done|]. intros o. apply eligible_period_1.
Qed.
End AddSample.

(** C3, the claim as stated fails: with windows of length 3 and one
    timestep added (K = 1 < 20), the sampled window starts at offset 0,
    and 0 + 3 exceeds K: its second and third slots were never written. *)
Lemma sample_underfilled_reads_unwritten :
  ∃ self s,
    facade_after 3 20 1 1 42 [add_call (reward_step 7)] = Some self
    ∧ _buffer_state self = Some s
    ∧ added [add_call (reward_step 7)] = [reward_step 7]
    ∧ Flashbax.sample_starts s (split (_rng_key self)).2 1 3 1 = [0]
    ∧ ¬ (0 + 3 ≤ 1)
    ∧ (sample self).2
      = Ok [[reward_step 7; map_structure empty_like (reward_step 7);
             map_structure empty_like (reward_step 7)]].
Proof.
  eexists. eexists. split; [reflexivity|]. split; [vm_compute; reflexivity|].
  split; [reflexivity|]. split; [vm_compute; reflexivity|].
  split; [lia|]. vm_compute; reflexivity.
Qed.

Lemma sample_within_written_witness :
  ∃ f0, __init__ 3 20 1 1 42 = Ok f0
    ∧ let calls := add_call <$> reward_steps 10 in
      let self := (run calls f0).1 in
      ∃ s starts,
        _buffer_state self = Some s
        ∧ starts = Flashbax.sample_starts s (split (_rng_key self)).2 1 3 1
        ∧ (sample self).2 = Ok (Flashbax.window s 3 <$> starts)
        ∧ length starts = 1
        ∧ Forall (λ o, o + 3 ≤ length (added calls)
                       ∧ Flashbax.window s 3 o
                         = take 3 (drop o (as_stored <$> added calls))) starts.
Proof.
  eexists. split; [reflexivity|]. cbv zeta.
  refine (sample_within_written 3 20 1 1 42 _ (add_call <$> reward_steps 10) _ _ _ _ _ _ _).
  - reflexivity.
  - lia.
  - vm_compute; reflexivity.
  - vm_compute; reflexivity.
  - vm_compute; lia.
  - vm_compute; lia.
  - vm_compute; lia.
Defined.

Lemma ring_keeps_most_recent_witness :
  ∃ f0, __init__ 3 5 1 1 42 = Ok f0
    ∧ rewards_of (stored (_buffer_state (run (add_call <$> reward_steps 7) f0).1))
      = [[2]; [3]; [4]; [5]; [6]]%Z
    ∧ let calls := add_call <$> reward_steps 7 in
      let ts := added calls in
      let self := (run calls f0).1 in
      Forall2 (λ c r, is_sample c = false → r = Ok RetNone) calls (run calls f0).2
      ∧ stored (_buffer_state self) = as_stored <$> drop (length ts - 5) ts
      ∧ length (stored (_buffer_state self)) = 5
      ∧ (∃ s, _buffer_state self = Some s
              ∧ length (TrajectoryBufferState.experience s) = 5)
      ∧ (∀ n, length (stored (_buffer_state (run (take n calls) f0).1)) ≤ 5)
      ∧ (NoDup (as_stored <$> ts) →
         ∀ t, t ∈ take (length ts - 5) ts → as_stored t ∉ stored (_buffer_state self))
      ∧ (Forall (λ t, as_stored t = t) ts →
         stored (_buffer_state self) = drop (length ts - 5) ts).
Proof.
  eexists. split; [reflexivity|]. split; [vm_compute; reflexivity|]. cbv zeta.
  refine (ring_keeps_most_recent 3 5 1 1 42 _ (add_call <$> reward_steps 7) _ _ _ _).
  - reflexivity.
  - vm_compute; reflexivity.
  - vm_compute; reflexivity.
  - vm_compute; lia.
Defined.

(** C6, the claim as stated fails: one timestep whose reward is the 64-bit
    integer 2^32 + 5 is added to a fresh facade (capacity 4, windows of
    length 1); the sampled window, whose origin offset is 0, shows at that
    offset the 32-bit integer 5, not the value that was added. *)
Lemma adds_not_byte_identical :
  let t := int64_step 4294967301 in
  ∃ self s w,
    facade_after 1 4 1 1 42 [add_call t] = Some self
    ∧ _buffer_state self = Some s
    ∧ Flashbax.sample_starts s (split (_rng_key self)).2 1 1 1 = [0]
    ∧ (sample self).2 = Ok [[w]]
    ∧ rewards t = mkArray int64 [] [Num 4294967301]
    ∧ rewards w = mkArray int32 [] [Num 5]
    ∧ w ≠ t.
Proof.
  cbv zeta. eexists. eexists. eexists.
  split; [reflexivity|]. split; [vm_compute; reflexivity|].
  split; [vm_compute; reflexivity|]. split; [vm_compute; reflexivity|].
  split; [reflexivity|]. split; [vm_compute; reflexivity|].
  intros E. apply (f_equal (λ x, dtype_of (rewards x))) in E.
  vm_compute in E. discriminate E.
Qed.

Lemma adds_kept_in_order_witness :
  ∃ f0, __init__ 3 20 1 1 42 = Ok f0
    ∧ let calls := add_call <$> reward_steps 10 in
      let ts := added calls in
      let self := (run calls f0).1 in
      Forall2 (λ c r, is_sample c = false → r = Ok RetNone) calls (run calls f0).2
      ∧ stored (_buffer_state self) = as_stored <$> ts
      ∧ (Forall (λ t, as_stored t = t) ts → stored (_buffer_state self) = ts)
      ∧ ∀ batch, (sample self).2 = Ok batch →
          ∃ s starts,
            _buffer_state self = Some s
            ∧ starts = Flashbax.sample_starts s (split (_rng_key self)).2 1 3 1
            ∧ batch = Flashbax.window s 3 <$> starts
            ∧ Forall (λ o, ∀ j t, j < 3 → ts !! (o + j) = Some t →
                                  Flashbax.window s 3 o !! j = Some (as_stored t)) starts.
Proof.
  eexists. split; [reflexivity|]. cbv zeta.
  refine (adds_kept_in_order 3 20 1 1 42 _ (add_call <$> reward_steps 10) _ _ _ _).
  - reflexivity.
  - vm_compute; reflexivity.
  - vm_compute; reflexivity.
  - vm_compute; lia.
Defined.

Lemma period_training_then_snapshot_witness :
  ∃ f0, __init__ 3 20 1 4 42 = Ok f0
    ∧ let trained := (run (add_call <$> reward_steps 5) f0).1 in
      let self' := (populate_from_vault disk0 "env" "scenario" "good" "datasets"
                      (run [CallSample] trained).1).1 in
      (_buffer_sample_fn trained = (λ s k, Flashbax.sample s k 1 3 4)
       ∧ (∀ s o, o ∈ Flashbax.eligible_offsets s 3 4 →
                 (4 | o) ∧ o + 3 ≤ Flashbax.max_time s)
       ∧ (∀ s k, 0 < Flashbax.num_valid_items s 3 4 →
                 Forall (λ start, ∃ o, o ∈ Flashbax.eligible_offsets s 3 4
                                       ∧ start = (Flashbax.head s + o)
                                                   mod length (TrajectoryBufferState.experience s))
                        (Flashbax.sample_starts s k 1 3 4)))
      ∧ (_buffer_sample_fn self' = (λ s k, Flashbax.sample s k 1 3 1)
         ∧ ∃ s, _buffer_state self' = Some s
                ∧ ∀ o, o + 3 ≤ Flashbax.max_time s → o ∈ Flashbax.eligible_offsets s 3 1).
Proof.
  eexists. split; [reflexivity|]. cbv zeta.
  refine (period_training_then_snapshot 3 20 1 4 42 _ (add_call <$> reward_steps 5)
            [CallSample] disk0 "env" "scenario" "good" "datasets" _ _ _ _).
  - reflexivity.
  - vm_compute; reflexivity.
  - vm_compute; reflexivity.
Defined.

(** * Further properties of the facade *)

Section Frames.
Context `{Random}.

Lemma with_key_with_key (self : FlashbaxReplayBuffer) k k' :
  with_key (with_key self k) k' = with_key self k'.
Proof. by destruct self. Qed.

Lemma with_key_id (self : FlashbaxReplayBuffer) : with_key self (_rng_key self) = self.
Proof. by destruct self. Qed.

(** [add] and [populate_from_vault] neither read nor write the key. *)
Lemma call_with_key c (self : FlashbaxReplayBuffer) k :
  is_sample c = false →
  call c (with_key self k) = (with_key (call c self).1 k, (call c self).2).
Proof.
  destruct c as [o a r te tr i| |d e s n rd]; [|done|]; intros _.
  - unfold call, mbind, M_bind, mret, M_ret.
    pose proof (add_unfold self (mkTimestep o a r te tr i)) as H1.
    pose proof (add_unfold (with_key self k) (mkTimestep o a r te tr i)) as H2.
    simpl in H1, H2. rewrite H1, H2. destruct self as [L cap B rb sf af st k0]. simpl.
    destruct (af _ _); reflexivity.
  - unfold call, mbind, M_bind, mret, M_ret. rewrite !populate_unfold.
    destruct self as [L cap B rb sf af st k0]. simpl.
    destruct (Vault.read _ _ _ _) as [bs|e0]; simpl.
    + by destruct (Flashbax.make_trajectory_buffer _ _ _ _ _ _).
    + by destruct (is_ValueError e0).
Qed.

Lemma sample_call_same_but_key (self : FlashbaxReplayBuffer) :
  same_but_key (call CallSample self).1 self.
Proof.
  exists (split (_rng_key self)).1.
  unfold call, mbind, M_bind, mret, M_ret. rewrite sample_unfold.
  by destruct (on_state _ _).
Qed.

Lemma call_same_but_key c (a b : FlashbaxReplayBuffer) :
  same_but_key a b → same_but_key (call c a).1 (call c b).1.
Proof.
  intros [k ->]. destruct (is_sample c) eqn:Hc.
  - destruct c; try done.
    destruct (sample_call_same_but_key (with_key b k)) as [k1 ->].
    destruct (sample_call_same_but_key b) as [k2 ->].
    exists k1. by rewrite !with_key_with_key.
  - rewrite call_with_key by done. by exists k.
Qed.

Lemma run_same_but_key calls (a b : FlashbaxReplayBuffer) :
  same_but_key a b → same_but_key (run calls a).1 (run calls b).1.
Proof.
  revert a b. induction calls as [|c cs IH]; intros a b Hab; [done|].
  rewrite !run_cons. simpl. by apply IH, call_same_but_key.
Qed.

(** X1: sampling never alters what the facade stores.  Whatever the
    history, the object it leaves is the one left by the same history
    without its [sample] calls, up to the key. *)
Theorem samples_leave_store calls (self : FlashbaxReplayBuffer) :
  (run calls self).1
  = with_key (run (drop_samples calls) self).1 (_rng_key (run calls self).1).
Proof.
  assert (same_but_key (run calls self).1 (run (drop_samples calls) self).1) as [k Hk].
  { revert self. induction calls as [|c cs IH]; intros self; [by exists (_rng_key self); rewrite with_key_id|].
    unfold drop_samples. destruct (is_sample c) eqn:Hc.
    - rewrite filter_cons_False by (rewrite Hc; intros []).
      rewrite run_cons. simpl. destruct c; try done.
      destruct (run_same_but_key cs _ _ (sample_call_same_but_key self)) as [k1 ->].
      destruct (IH self) as [k2 ->]. exists k1. by rewrite with_key_with_key.
    - rewrite filter_cons_True by (by rewrite Hc).
      rewrite !run_cons. simpl. apply IH. }
  rewrite Hk at 1. f_equal. rewrite Hk. by destruct (run (drop_samples calls) self).1.
Qed.

Lemma run_rng_key calls (self : FlashbaxReplayBuffer) :
  _rng_key (run calls self).1
  = derive (_rng_key self) (replicate (length (filter is_sample calls)) false).
Proof.
  revert self. induction calls as [|c cs IH]; intros self; [done|].
  rewrite run_cons. simpl. rewrite IH, call_rng_key.
  destruct (is_sample c) eqn:Hc.
  - rewrite filter_cons_True by (by rewrite Hc). simpl. done.
  - by rewrite filter_cons_False by (rewrite Hc; intros []).
Qed.

(** X2: the key handed to the i-th [sample] call of a history is the
    second half of the split taken after i first halves, counted from the
    key the history starts with: [add] and [populate_from_vault] calls,
    failed or not, never shift the key sequence, and the key left at the
    end has advanced once per [sample] call. *)
Theorem sample_key_sequence calls (self : FlashbaxReplayBuffer) :
  sample_keys calls self
  = (λ i, derive (_rng_key self) (replicate i false ++ [true]))
      <$> seq 0 (length (filter is_sample calls))
  ∧ _rng_key (run calls self).1
    = derive (_rng_key self) (replicate (length (filter is_sample calls)) false).
Proof. split; [by apply sample_keys_derive | apply run_rng_key]. Qed.

(** X3: no method reassigns the window length or the batch size, and
    [add] and [sample] reassign neither [max_size] nor the buffer and its
    functions: along a history without [populate_from_vault] they stay as
    they were. *)
Theorem configuration_immutable calls (self : FlashbaxReplayBuffer) :
  (_sequence_length (run calls self).1 = _sequence_length self
   ∧ _batch_size (run calls self).1 = _batch_size self)
  ∧ (no_populate calls = true →
     _max_size (run calls self).1 = _max_size self
     ∧ _replay_buffer (run calls self).1 = _replay_buffer self
     ∧ _buffer_sample_fn (run calls self).1 = _buffer_sample_fn self
     ∧ _buffer_add_fn (run calls self).1 = _buffer_add_fn self).
Proof.
  split; [apply run_configuration|].
  revert self. induction calls as [|c cs IH]; intros self Hnp; [done|].
  simpl in Hnp. apply andb_true_iff in Hnp as [Hc Hnp].
  rewrite run_cons. simpl. destruct (IH (call c self).1 Hnp) as (-> & -> & -> & ->).
  destruct (call_frame c self) as (st & k & -> & _); [by destruct (is_populate c)|].
  by destruct self.
Qed.

Lemma add_state_is_Some o a r te tr i (self : FlashbaxReplayBuffer) :
  is_Some (_buffer_state (add o a r te tr i self).1).
Proof.
  pose proof (add_unfold self (mkTimestep o a r te tr i)) as Hadd. simpl in Hadd.
  rewrite Hadd. destruct (_buffer_add_fn _ _ _); by destruct self.
Qed.

Lemma call_state_is_Some c (self : FlashbaxReplayBuffer) :
  is_Some (_buffer_state self) ∨ is_add c = true →
  is_Some (_buffer_state (call c self).1).
Proof.
  intros Hor. destruct c as [o a r te tr i| |d e s n rd].
  - unfold call, mbind, M_bind, mret, M_ret.
    pose proof (add_state_is_Some o a r te tr i self) as Hs.
    by destruct (add o a r te tr i self) as [self1 [[]|err]].
  - destruct Hor as [Hs|]; [|done].
    destruct (sample_call_same_but_key self) as [k ->]. by destruct self.
  - destruct Hor as [Hs|]; [|done].
    unfold call, mbind, M_bind, mret, M_ret. rewrite populate_unfold.
    destruct self as [L cap B rb sf af st k].
    destruct (Vault.read _ _ _ _) as [bs|e0]; simpl.
    + by destruct (Flashbax.make_trajectory_buffer _ _ _ _ _ _).
    + by destruct (is_ValueError e0).
Qed.

(** X4: the store, once there, is never taken away, and every [add]
    call leaves one behind, also an [add] that raises: after a history
    that starts with a store or contains an [add], the facade has a
    store. *)
Theorem store_persists calls (self : FlashbaxReplayBuffer) :
  is_Some (_buffer_state self) ∨ existsb is_add calls = true →
  is_Some (_buffer_state (run calls self).1).
Proof.
  revert self. induction calls as [|c cs IH]; intros self Hor.
  - by destruct Hor.
  - rewrite run_cons. simpl. apply IH. simpl in Hor.
    destruct Hor as [Hs|Hex].
    + left. apply call_state_is_Some. by left.
    + apply orb_true_iff in Hex as [Hc|Hcs]; [|by right].
      left. apply call_state_is_Some. by right.
Qed.

(** X5: an [add] that raises on a facade that already has a store
    leaves the facade exactly as it was; nothing is half written. *)
Theorem add_failure_keeps_store o a r te tr i (self : FlashbaxReplayBuffer) s e :
  _buffer_state self = Some s →
  (add o a r te tr i self).2 = Err e →
  (add o a r te tr i self).1 = self.
Proof.
  intros Hs. pose proof (add_unfold self (mkTimestep o a r te tr i)) as Hadd.
  simpl in Hadd. rewrite Hadd, Hs. clear Hadd.
  destruct (_buffer_add_fn _ _ _); simpl; [intros [=]|]. intros _.
  destruct self; simpl in *. by subst.
Qed.

(** X6: [populate_from_vault] raises exactly when the vault read raises
    something other than a [ValueError]; the exception is the read's own
    and the facade is left untouched.  No [ValueError] ever escapes the
    method. *)
Theorem populate_raises_only_from_read d env_name scenario_name dataset_name rel_dir
    (self : FlashbaxReplayBuffer) e :
  (populate_from_vault d env_name scenario_name dataset_name rel_dir self).2 = Err e
  ↔ Vault.read d (env_name +:+ "/" +:+ scenario_name +:+ ".vlt") dataset_name rel_dir = Err e
    ∧ is_ValueError e = false
    ∧ (populate_from_vault d env_name scenario_name dataset_name rel_dir self).1 = self.
Proof.
  rewrite populate_unfold.
  destruct (Vault.read _ _ _ _) as [bs|e0]; simpl.
  - destruct (Flashbax.make_trajectory_buffer _ _ _ _ _ _); simpl;
      split; [done | by intros [? _] | done | by intros [? _]].
  - destruct (is_ValueError e0) eqn:He0; split.
    + done.
    + intros ([= ->] & He & _). congruence.
    + intros [= ->]. done.
    + by intros ([= ->] & _).
Qed.
End Frames.

Section Loading.
Context `{Random}.

Lemma make_trajectory_buffer_accepts B L cap :
  is_Ok (Flashbax.make_trajectory_buffer 1 B L 1 1 cap) = true ↔ L ≤ cap ∧ 1 ≤ cap.
Proof.
  unfold Flashbax.make_trajectory_buffer, Flashbax.validate_trajectory_buffer_args.
  rewrite Nat.div_1_r.
  destruct (cap <? L) eqn:HL; simpl.
  - apply Nat.ltb_lt in HL. split; [done | lia].
  - apply Nat.ltb_ge in HL.
    destruct (1 <? L) eqn:H1; [apply Nat.ltb_lt in H1 | apply Nat.ltb_ge in H1].
    + rewrite (proj2 (Nat.ltb_ge cap L)) by lia. simpl. split; [lia | done].
    + destruct (cap <? 1) eqn:Hc; simpl;
        [apply Nat.ltb_lt in Hc | apply Nat.ltb_ge in Hc]; split; (done || lia).
Qed.

(** X7: [populate_from_vault] returns [True] exactly when the vault read
    returns a state whose [current_index] is at least 1 and at least the
    window length, the capacities the rebuilt buffer accepts; it returns
    [False] when the read raises [ValueError] or the index is smaller. *)
Theorem populate_returns_True_iff d env_name scenario_name dataset_name rel_dir
    (self : FlashbaxReplayBuffer) :
  ((populate_from_vault d env_name scenario_name dataset_name rel_dir self).2 = Ok true
   ↔ ∃ bs, Vault.read d (env_name +:+ "/" +:+ scenario_name +:+ ".vlt")
             dataset_name rel_dir = Ok bs
           ∧ _sequence_length self ≤ TrajectoryBufferState.current_index bs
           ∧ 1 ≤ TrajectoryBufferState.current_index bs)
  ∧ ((populate_from_vault d env_name scenario_name dataset_name rel_dir self).2 = Ok false
     ↔ (∃ e, Vault.read d (env_name +:+ "/" +:+ scenario_name +:+ ".vlt")
               dataset_name rel_dir = Err e ∧ is_ValueError e = true)
       ∨ (∃ bs, Vault.read d (env_name +:+ "/" +:+ scenario_name +:+ ".vlt")
                  dataset_name rel_dir = Ok bs
                ∧ ¬ (_sequence_length self ≤ TrajectoryBufferState.current_index bs
                     ∧ 1 ≤ TrajectoryBufferState.current_index bs))).
Proof.
  rewrite populate_unfold.
  destruct (Vault.read _ _ _ _) as [bs|e0]; simpl.
  - pose proof (make_trajectory_buffer_accepts (_batch_size self) (_sequence_length self)
                  (TrajectoryBufferState.current_index bs)) as Hacc.
    destruct (Flashbax.make_trajectory_buffer _ _ _ _ _ _) as [rb|e1]; simpl in *.
    + destruct Hacc as [Hacc _]. specialize (Hacc eq_refl). split; split.
      * intros _. by exists bs.
      * done.
      * done.
      * intros [(e & [=] & _)|(bs' & [= <-] & Hn)]. by destruct Hn.
    + split; split.
      * done.
      * intros (bs' & [= <-] & HL & H1). destruct Hacc as [_ Hacc].
        by specialize (Hacc (conj HL H1)).
      * intros _. right. exists bs. split; [done|]. intros Hn.
        destruct Hacc as [_ Hacc]. by specialize (Hacc Hn).
      * done.
  - destruct (is_ValueError e0) eqn:He0; split; split.
    + done.
    + by intros (bs & [=] & _).
    + intros _. left. by exists e0.
    + done.
    + done.
    + by intros (bs & [=] & _).
    + done.
    + intros [(e & [= <-] & He)|(bs & [=] & _)]. congruence.
Qed.

(** X8: loading is idempotent.  After a successful
    [populate_from_vault], the same call on the same disk succeeds again
    and leaves the facade as the first call left it. *)
Theorem populate_idempotent d env_name scenario_name dataset_name rel_dir
    (self self' : FlashbaxReplayBuffer) :
  populate_from_vault d env_name scenario_name dataset_name rel_dir self = (self', Ok true) →
  populate_from_vault d env_name scenario_name dataset_name rel_dir self' = (self', Ok true).
Proof.
  intros (bs & rb & Hread & Hmk & ->)%populate_Ok_inv.
  rewrite populate_unfold, Hread. simpl. by rewrite Hmk.
Qed.

(** X9: a successful load forgets the history.  The facade it leaves
    is determined by the loaded state, the window length, the batch size
    and the key: two facades that agree on these three end up equal,
    whatever was added to either before. *)
Theorem populate_forgets_history d env_name scenario_name dataset_name rel_dir
    (a b a' : FlashbaxReplayBuffer) :
  _sequence_length a = _sequence_length b →
  _batch_size a = _batch_size b →
  _rng_key a = _rng_key b →
  populate_from_vault d env_name scenario_name dataset_name rel_dir a = (a', Ok true) →
  populate_from_vault d env_name scenario_name dataset_name rel_dir b = (a', Ok true).
Proof.
  intros HL HB Hk (bs & rb & Hread & Hmk & ->)%populate_Ok_inv.
  rewrite populate_unfold, Hread. simpl. rewrite <- HL, <- HB, <- Hk. by rewrite Hmk.
Qed.

(** X12: right after a successful load, [sample] works without any
    [add]: it returns [batch_size] windows of the loaded state, drawn with
    period 1, and when that state holds a whole window every one of them
    starts at an offset, counted from the oldest step, that leaves room
    for the window. *)
Theorem sample_after_load d env_name scenario_name dataset_name rel_dir
    (self self' : FlashbaxReplayBuffer) :
  populate_from_vault d env_name scenario_name dataset_name rel_dir self = (self', Ok true) →
  ∃ bs starts,
    Vault.read d (env_name +:+ "/" +:+ scenario_name +:+ ".vlt") dataset_name rel_dir = Ok bs
    ∧ starts = Flashbax.sample_starts bs (split (_rng_key self)).2
                 (_batch_size self) (_sequence_length self) 1
    ∧ (sample self').2 = Ok (Flashbax.window bs (_sequence_length self) <$> starts)
    ∧ length starts = _batch_size self
    ∧ (_sequence_length self ≤ Flashbax.max_time bs →
       Forall (λ start, ∃ o, o + _sequence_length self ≤ Flashbax.max_time bs
                             ∧ start = (Flashbax.head bs + o)
                                         mod length (TrajectoryBufferState.experience bs))
              starts).
Proof.
  intros (bs & rb & Hread & Hmk & ->)%populate_Ok_inv.
  apply make_trajectory_buffer_Ok in Hmk as (Hs & _ & _).
  eexists bs, _. split; [done|]. split; [reflexivity|]. split.
  { rewrite sample_unfold. simpl. unfold jit. by rewrite Hs. }
  split; [apply sample_starts_length|].
  intros HL. eapply Forall_impl.
  - apply sample_starts_eligible. unfold Flashbax.num_valid_items.
    rewrite (proj2 (Nat.leb_le _ _) HL). lia.
  - intros start (o & Ho & ->). simpl. exists o. split; [|done].
    by apply eligible_strided in Ho as [_ Ho].
Qed.

(** X11: the store a load installs does not grow.  An [add] right after
    a successful load, of a timestep whose jax arrays have the element
    types and shapes of the loaded ones, returns normally and overwrites
    the slot at the loaded cursor (modulo the length of the loaded time
    axis) with the timestep's jax arrays; every other slot and the length
    of the time axis stay as loaded. *)
Theorem add_after_load_overwrites d env_name scenario_name dataset_name rel_dir
    (self self' : FlashbaxReplayBuffer) bs e0 t :
  populate_from_vault d env_name scenario_name dataset_name rel_dir self = (self', Ok true) →
  _buffer_state self' = Some bs →
  head (TrajectoryBufferState.experience bs) = Some e0 →
  tree_spec (as_stored t) = tree_spec e0 →
  let r := add (observations t) (actions t) (rewards t) (terminals t)
               (truncations t) (infos t) self' in
  let n := length (TrajectoryBufferState.experience bs) in
  r.2 = Ok ()
  ∧ ∃ s', _buffer_state r.1 = Some s'
          ∧ TrajectoryBufferState.experience s'
            = <[TrajectoryBufferState.current_index bs mod n := as_stored t]>
                (TrajectoryBufferState.experience bs)
          ∧ length (TrajectoryBufferState.experience s') = n
          ∧ TrajectoryBufferState.current_index s'
            = (TrajectoryBufferState.current_index bs + 1) mod n.
Proof.
  intros (bs' & rb & Hread & Hmk & ->)%populate_Ok_inv [= <-] Hhd Ht r n.
  apply make_trajectory_buffer_Ok in Hmk as (_ & Ha & _).
  subst r. rewrite add_unfold. simpl. unfold jit. rewrite Ha.
  destruct bs' as [exp cur full]. simpl in *.
  destruct exp as [|e exp]; [done|]. injection Hhd as ->.
  apply pair_equal_spec in Ht as [Hd Hsh].
  pose proof (add_same_spec e0 exp cur full (as_stored t) Hd Hsh) as Hadd.
  cbv zeta in Hadd.
  replace (map_structure jnp_array
             (mkTimestep (observations t) (actions t) (rewards t) (terminals t)
                (truncations t) (infos t))) with (as_stored t) by (by destruct t).
  rewrite Hadd. simpl.
  split; [done|]. eexists. split; [reflexivity|]. simpl.
  unfold Flashbax.scatter. simpl. subst n. simpl.
  split; [done|]. split; [by rewrite length_insert | done].
Qed.
End Loading.

Section FullRing.
Context `{Random}.

(** Reading a ring from slot [h] onwards, around the end. *)
Lemma rotate_lookup {A} (l : list A) h m :
  h < length l → m < length l →
  (drop h l ++ take h l) !! m = l !! ((h + m) mod length l).
Proof.
  intros Hh Hm. destruct (decide (h + m < length l)) as [Hlt|Hge].
  - rewrite lookup_app_l by (rewrite length_drop; lia).
    by rewrite lookup_drop, Nat.mod_small.
  - rewrite lookup_app_r by (rewrite length_drop; lia).
    rewrite length_drop, lookup_take_lt by lia.
    replace (h + m) with ((h + m - length l) + 1 * length l) by lia.
    rewrite Nat.Div0.mod_add, Nat.mod_small by lia. f_equal. lia.
Qed.

(** X10: once the ring is full (at least [max_size] timesteps of one
    element type and shape added, sample period at least 1), every window
    [sample] returns is a run of [sequence_length] consecutive timesteps
    among the last [max_size] added ones, as the store holds them (made
    jax arrays), starting at a multiple of the period: it may wrap around
    the end of the storage but never runs from the newest step into the
    oldest. *)
Theorem sample_within_full_ring L cap B p seed (f0 : FlashbaxReplayBuffer) calls :
  __init__ L cap B p seed = Ok f0 →
  0 < p →
  no_populate calls = true →
  same_specs (added calls) = true →
  cap ≤ length (added calls) →
  let self := (run calls f0).1 in
  let recent := as_stored <$> drop (length (added calls) - cap) (added calls) in
  ∃ s starts,
    _buffer_state self = Some s
    ∧ starts = Flashbax.sample_starts s (split (_rng_key self)).2 B L p
    ∧ (sample self).2 = Ok (Flashbax.window s L <$> starts)
    ∧ length starts = B
    ∧ Forall (λ start, ∃ o, (p | o) ∧ o + L ≤ cap
                            ∧ Flashbax.window s L start = take L (drop o recent)) starts.
Proof.
  intros Hinit Hp Hnp Hsh Hfull self recent.
  destruct (run_fresh _ _ _ _ _ _ _ Hinit Hnp Hsh) as (sh & Htr & _).
  destruct (init_inv _ _ _ _ _ _ Hinit) as (HL & Hcap & Hf0 & _).
  assert (_max_size f0 = cap) as Hms by (by rewrite Hf0).
  assert (_buffer_sample_fn f0 = (λ s k, Flashbax.sample s k B L p)) as Hsf
    by (by rewrite Hf0).
  assert (length (as_stored <$> added calls) = length (added calls)) as HlenK
    by apply length_fmap.
  destruct (tracks_state _ _ _ _ _ Htr) as (s & Hs & Hring).
  { intros E%(f_equal length). rewrite HlenK in E. simpl in E. lia. }
  rewrite Hms in Hring.
  destruct (tracks_fields _ _ _ _ _ Htr) as (_ & _ & Hfn).
  fold self in Hs, Hfn.
  destruct Hring as [Hlen Hidx Hfl _ _ Hrot _].
  rewrite HlenK in Hidx, Hfl, Hrot. specialize (Hrot Hfull).
  rewrite bool_decide_eq_true_2 in Hfl by done.
  assert (Flashbax.max_time s = cap) as Hmax
    by (unfold Flashbax.max_time; by rewrite Hfl).
  assert (Flashbax.head s = length (added calls) mod cap) as Hhead
    by (unfold Flashbax.head; by rewrite Hfl).
  assert (length (added calls) mod cap < cap) as Hh by (apply Nat.mod_upper_bound; lia).
  exists s, (Flashbax.sample_starts s (split (_rng_key self)).2 B L p).
  split; [done|]. split; [done|]. split.
  { rewrite sample_unfold, Hs. simpl. by rewrite Hfn, Hsf. }
  split; [apply sample_starts_length|].
  unfold Flashbax.sample_starts. apply Forall_fmap.
  eapply Forall_impl.
  - apply randint_range. unfold Flashbax.num_valid_items.
    rewrite Hmax, (proj2 (Nat.leb_le _ _) HL). lia.
  - intros i Hi. simpl. apply item_offset_bound in Hi. rewrite Hmax in Hi.
    exists (i * p). split; [by exists i|]. split; [done|].
    unfold Flashbax.start_index. rewrite Hhead, Hlen.
    apply list_eq. intros j. destruct (decide (j < L)) as [Hj|Hj].
    + rewrite window_lookup by lia. rewrite Hlen.
      rewrite Nat.Div0.add_mod_idemp_l.
      rewrite lookup_take_lt, lookup_drop by done.
      subst recent. rewrite fmap_drop, <- Hrot.
      rewrite rotate_lookup by lia. rewrite Hlen. f_equal. f_equal. lia.
    + rewrite lookup_take_ge by lia.
      apply lookup_ge_None. rewrite window_length by lia. lia.
Qed.

(** X13: the first [add] on a fresh facade allocates the store: it has
    [max_size] slots, the first holds the timestep's jax arrays, the
    others are zero-filled arrays of their element types and shapes, and
    the cursor stands at [1 mod max_size]. *)
Theorem first_add_allocates L cap B p seed (f0 : FlashbaxReplayBuffer) t :
  __init__ L cap B p seed = Ok f0 →
  let r := add (observations t) (actions t) (rewards t) (terminals t)
               (truncations t) (infos t) f0 in
  r.2 = Ok ()
  ∧ _buffer_state r.1
    = Some (TrajectoryBufferState.mk
              (as_stored t :: replicate (cap - 1) (map_structure empty_like t))
              (1 mod cap) (cap <=? 1)).
Proof.
  intros Hinit r.
  destruct (init_inv _ _ _ _ _ _ Hinit) as (HL & Hcap & Hf0 & Hini).
  subst r. rewrite add_unfold, Hini. rewrite Hf0. cbn [_buffer_state _buffer_add_fn].
  cbv zeta.
  replace (mkTimestep (observations t) (actions t) (rewards t) (terminals t)
             (truncations t) (infos t)) with t by (by destruct t).
  destruct cap as [|cap]; [lia|].
  unfold Flashbax.init. cbn [replicate].
  rewrite (add_same_spec (map_structure empty_like t) _ 0 false (as_stored t))
    by reflexivity.
  cbn [length]. rewrite length_replicate.
  unfold Flashbax.scatter. cbn [imap foldl fst snd Nat.add].
  rewrite Nat.Div0.mod_0_l. cbn [fst snd with_state set_buffer_state _buffer_state].
  split; [done|]. replace (S cap - 1) with cap by lia. reflexivity.
Qed.

(** X15: the constructor accepts a configuration exactly when
    [max_size] is at least 1 and at least the window length; otherwise it
    raises a [ValueError] and no facade exists.  An accepted facade
    starts without a store, with the key made from the seed. *)
Theorem init_accepts_iff L cap B p seed :
  (is_Ok (__init__ L cap B p seed) = true ↔ L ≤ cap ∧ 1 ≤ cap)
  ∧ (∀ e, __init__ L cap B p seed = Err e → is_ValueError e = true)
  ∧ (∀ f0 : FlashbaxReplayBuffer, __init__ L cap B p seed = Ok f0 →
       _buffer_state f0 = None ∧ _rng_key f0 = PRNGKey seed
       ∧ _sequence_length f0 = L ∧ _max_size f0 = cap ∧ _batch_size f0 = B).
Proof.
  split; [|split].
  - unfold __init__, Flashbax.make_trajectory_buffer,
      Flashbax.validate_trajectory_buffer_args.
    rewrite Nat.div_1_r.
    destruct (cap <? L) eqn:HL; simpl.
    + apply Nat.ltb_lt in HL. split; [done | lia].
    + apply Nat.ltb_ge in HL.
      destruct (1 <? L) eqn:H1; [apply Nat.ltb_lt in H1 | apply Nat.ltb_ge in H1].
      * rewrite (proj2 (Nat.ltb_ge cap L)) by lia. simpl. split; [lia | done].
      * destruct (cap <? 1) eqn:Hc; simpl;
          [apply Nat.ltb_lt in Hc | apply Nat.ltb_ge in Hc]; split; (done || lia).
  - intros e. unfold __init__.
    destruct (Flashbax.make_trajectory_buffer _ _ _ _ _ _) eqn:Hmk; simpl; [done|].
    intros [= <-]. by eapply make_trajectory_buffer_error.
  - intros f0 Hinit. destruct (init_inv _ _ _ _ _ _ Hinit) as (_ & _ & -> & _). done.
Qed.
End FullRing.

Lemma store_persists_witness :
  ∃ f0, __init__ 3 20 1 1 42 = Ok f0
    ∧ is_Some (_buffer_state (run [CallSample; add_call (wide_step 1); CallSample] f0).1).
Proof.
  eexists. split; [reflexivity|].
  refine (store_persists [CallSample; add_call (wide_step 1); CallSample] _ _).
  right. vm_compute; reflexivity.
Defined.

Lemma add_failure_keeps_store_witness :
  ∃ self,
    facade_after 3 20 1 1 42 [add_call (reward_step 7)] = Some self
    ∧ let t := wide_step 1 in
      is_Ok (add (observations t) (actions t) (rewards t) (terminals t)
                 (truncations t) (infos t) self).2 = false
      ∧ (add (observations t) (actions t) (rewards t) (terminals t)
             (truncations t) (infos t) self).1 = self.
Proof.
  eexists. split; [reflexivity|]. cbv zeta. split; [vm_compute; reflexivity|].
  eapply (add_failure_keeps_store (observations (wide_step 1)) (actions (wide_step 1))
            (rewards (wide_step 1)) (terminals (wide_step 1)) (truncations (wide_step 1))
            (infos (wide_step 1)));
    vm_compute; reflexivity.
Defined.

Lemma populate_idempotent_witness :
  ∃ self,
    facade_after 3 20 1 1 42 (add_call <$> reward_steps 5) = Some self
    ∧ let self' := (populate_from_vault disk0 "env" "scenario" "good" "datasets" self).1 in
      populate_from_vault disk0 "env" "scenario" "good" "datasets" self' = (self', Ok true).
Proof.
  eexists. split; [reflexivity|]. cbv zeta.
  match goal with
  | |- populate_from_vault _ _ _ _ _ (fst (populate_from_vault _ _ _ _ _ ?s)) = _ =>
      refine (populate_idempotent disk0 "env" "scenario" "good" "datasets" s _ _)
  end.
  vm_compute; reflexivity.
Defined.

Lemma populate_forgets_history_witness :
  ∃ f0, __init__ 3 20 1 1 42 = Ok f0
    ∧ let a := (run (add_call <$> reward_steps 5) f0).1 in
      populate_from_vault disk0 "env" "scenario" "good" "datasets" f0
      = ((populate_from_vault disk0 "env" "scenario" "good" "datasets" a).1, Ok true).
Proof.
  eexists. split; [reflexivity|]. cbv zeta.
  match goal with
  | |- populate_from_vault _ _ _ _ _ ?f0 = _ =>
      refine (populate_forgets_history disk0 "env" "scenario" "good" "datasets"
                (run (add_call <$> reward_steps 5) f0).1 f0 _ _ _ _ _)
  end; vm_compute; reflexivity.
Defined.

Lemma sample_within_full_ring_witness :
  ∃ f0, __init__ 3 5 2 1 42 = Ok f0
    ∧ let calls := add_call <$> reward_steps 7 in
      let self := (run calls f0).1 in
      let recent := as_stored <$> drop (length (added calls) - 5) (added calls) in
      ∃ s starts,
        _buffer_state self = Some s
        ∧ starts = Flashbax.sample_starts s (split (_rng_key self)).2 2 3 1
        ∧ (sample self).2 = Ok (Flashbax.window s 3 <$> starts)
        ∧ length starts = 2
        ∧ Forall (λ start, ∃ o, (1 | o) ∧ o + 3 ≤ 5
                                ∧ Flashbax.window s 3 start = take 3 (drop o recent)) starts.
Proof.
  eexists. split; [reflexivity|]. cbv zeta.
  refine (sample_within_full_ring 3 5 2 1 42 _ (add_call <$> reward_steps 7) _ _ _ _ _).
  - reflexivity.
  - lia.
  - vm_compute; reflexivity.
  - vm_compute; reflexivity.
  - vm_compute; lia.
Defined.

Lemma add_after_load_overwrites_witness :
  ∃ self,
    facade_after 3 20 1 1 42 (add_call <$> reward_steps 5) = Some self
    ∧ let self' := (populate_from_vault disk0 "env" "scenario" "good" "datasets" self).1 in
      let bs := TrajectoryBufferState.mk (reward_steps 6) 6 true in
      let t := reward_step 9 in
      let r := add (observations t) (actions t) (rewards t) (terminals t)
                   (truncations t) (infos t) self' in
      let n := length (TrajectoryBufferState.experience bs) in
      r.2 = Ok ()
      ∧ ∃ s', _buffer_state r.1 = Some s'
              ∧ TrajectoryBufferState.experience s'
                = <[TrajectoryBufferState.current_index bs mod n := as_stored t]>
                    (TrajectoryBufferState.experience bs)
              ∧ length (TrajectoryBufferState.experience s') = n
              ∧ TrajectoryBufferState.current_index s'
                = (TrajectoryBufferState.current_index bs + 1) mod n.
Proof.
  eexists. split; [reflexivity|]. cbv zeta.
  match goal with
  | |- context [populate_from_vault _ _ _ _ _ ?s] =>
      refine (add_after_load_overwrites disk0 "env" "scenario" "good" "datasets" s
                (populate_from_vault disk0 "env" "scenario" "good" "datasets" s).1
                (TrajectoryBufferState.mk (reward_steps 6) 6 true) (reward_step 0)
                (reward_step 9) _ _ _ _)
  end; vm_compute; reflexivity.
Defined.

Lemma sample_after_load_witness :
  ∃ f0, __init__ 3 20 2 4 42 = Ok f0
    ∧ let self' := (populate_from_vault disk0 "env" "scenario" "good" "datasets" f0).1 in
      ∃ bs starts,
        Vault.read disk0 ("env" +:+ "/" +:+ "scenario" +:+ ".vlt") "good" "datasets" = Ok bs
        ∧ starts = Flashbax.sample_starts bs (split (_rng_key f0)).2
                     (_batch_size f0) (_sequence_length f0) 1
        ∧ (sample self').2 = Ok (Flashbax.window bs (_sequence_length f0) <$> starts)
        ∧ length starts = _batch_size f0
        ∧ (_sequence_length f0 ≤ Flashbax.max_time bs →
           Forall (λ start, ∃ o, o + _sequence_length f0 ≤ Flashbax.max_time bs
                                 ∧ start = (Flashbax.head bs + o)
                                             mod length (TrajectoryBufferState.experience bs))
                  starts).
Proof.
  eexists. split; [reflexivity|]. cbv zeta.
  refine (sample_after_load disk0 "env" "scenario" "good" "datasets" _ _ _).
  vm_compute; reflexivity.
Defined.

Lemma first_add_allocates_witness :
  ∃ f0, __init__ 3 4 1 1 42 = Ok f0
    ∧ let t := reward_step 7 in
      let r := add (observations t) (actions t) (rewards t) (terminals t)
                   (truncations t) (infos t) f0 in
      r.2 = Ok ()
      ∧ _buffer_state r.1
        = Some (TrajectoryBufferState.mk
                  (as_stored t :: replicate (4 - 1) (map_structure empty_like t))
                  (1 mod 4) (4 <=? 1)).
Proof.
  eexists. split; [reflexivity|]. cbv zeta.
  refine (first_add_allocates 3 4 1 1 42 _ (reward_step 7) _). reflexivity.
Defined.
